(** * eclisp, package [lang]: values, classification, conversion, resolution

    A shallow embedding of [lang/value.go] together with the parts of the Go
    standard library it calls ([strconv], [math/big], [regexp]), and the
    properties of the value core proved over it.

    Conventions.  A Go [string] is a sequence of bytes and is a Rocq [string];
    a byte is compared through its code in [Z].  [int64] and [uint64] are [Z]
    with the wrap-around written out.  A [*big.Int] is an unbounded [Z].
    A [float64] is a [spec_float] at precision 53 and exponent bound 1024.
    A Go result pair [(Value, error)] stays a pair, [nil] being [None]. *)

From Stdlib Require Import ZArith Lia Bool List.
From Stdlib Require Import Ascii String.
From Stdlib Require Import Floats.SpecFloat.
From stdpp Require Import gmap strings.

Local Open Scope string_scope.
Local Open Scope Z_scope.

(** ** Bytes *)

Definition byte (c : ascii) : Z := Z.of_N (N_of_ascii c).

Definition chr (n : Z) : ascii := ascii_of_N (Z.to_N n).

Definition isDigit (c : ascii) : bool := (48 <=? byte c) && (byte c <=? 57).

Definition isLetter (c : ascii) : bool :=
  ((97 <=? byte c) && (byte c <=? 122)) || ((65 <=? byte c) && (byte c <=? 90)).

(** [len(s)] as a Go [int]. *)
Definition len (s : string) : Z := Z.of_nat (String.length s).

(** ** Package strconv (Go 1.13 and later: base prefixes and underscores) *)

Module Strconv.

Inductive NumErr : Set := ErrSyntax | ErrRange | ErrBase | ErrBitSize.

Definition uint64 (x : Z) : Z := x mod 2 ^ 64.

Definition maxUint64 : Z := 2 ^ 64 - 1.

(** [lower(c)] is [c | ('x' - 'X')]. *)
Definition lower (c : ascii) : Z := Z.lor (byte c) 32.

(** The digit switch of [ParseUint]'s loop: [None] is its [default] case. *)
Definition digitVal (c : ascii) : option Z :=
  if isDigit c then Some (byte c - 48)
  else if (97 <=? lower c) && (lower c <=? 122) then Some (lower c - 97 + 10)
  else None.

(** [underscoreOK]: the state [i] of the previous character is ['0'] after a
    digit or base prefix, ['_'] after an underscore, ['!'] after anything else
    and ['^'] at the start. *)
Inductive usState : Set := UsStart | UsDigit | UsSep | UsOther.

Fixpoint underscoreLoop (hex : bool) (s : string) (i : usState) : bool :=
  match s with
  | EmptyString => match i with UsSep => false | _ => true end
  | String c s' =>
      if isDigit c || (hex && (97 <=? lower c) && (lower c <=? 102))
      then underscoreLoop hex s' UsDigit
      else if Ascii.eqb c "_"
      then match i with
           | UsDigit => underscoreLoop hex s' UsSep
           | _ => false
           end
      else match i with
           | UsSep => false
           | _ => underscoreLoop hex s' UsOther
           end
  end.

Definition underscoreOK (s : string) : bool :=
  let s := match s with
           | String c s' => if Ascii.eqb c "-" || Ascii.eqb c "+" then s' else s
           | EmptyString => s
           end in
  match s with
  | String c0 (String c1 s') =>
      if Ascii.eqb c0 "0" &&
         ((lower c1 =? 98) || (lower c1 =? 111) || (lower c1 =? 120))
      then underscoreLoop (lower c1 =? 120) s' UsDigit
      else underscoreLoop false s UsStart
  | _ => underscoreLoop false s UsStart
  end.

(** The digit loop of [ParseUint]; the third component is [underscores]. *)
Fixpoint parseLoop (base : Z) (base0 : bool) (cutoff maxVal : Z)
    (s : string) (n : Z) (underscores : bool) : Z * option NumErr * bool :=
  match s with
  | EmptyString => (n, None, underscores)
  | String c s' =>
      if Ascii.eqb c "_" && base0
      then parseLoop base base0 cutoff maxVal s' n true
      else match digitVal c with
           | None => (0, Some ErrSyntax, underscores)
           | Some d =>
               if base <=? d then (0, Some ErrSyntax, underscores)
               else if cutoff <=? n then (maxVal, Some ErrRange, underscores)
               else
                 let n := uint64 (n * base) in
                 let n1 := uint64 (n + d) in
                 if (n1 <? n) || (maxVal <? n1)
                 then (maxVal, Some ErrRange, underscores)
                 else parseLoop base base0 cutoff maxVal s' n1 underscores
           end
  end.

(** The base switch of [ParseUint]: the base to use and the digits left. *)
Definition pickBase (s : string) (base : Z) : option (Z * string) :=
  if (2 <=? base) && (base <=? 36) then Some (base, s)
  else if base =? 0 then
    match s with
    | String c0 s1 =>
        if Ascii.eqb c0 "0" then
          match s1 with
          | String c1 s2 =>
              if (3 <=? len s) && (lower c1 =? 98) then Some (2, s2)
              else if (3 <=? len s) && (lower c1 =? 111) then Some (8, s2)
              else if (3 <=? len s) && (lower c1 =? 120) then Some (16, s2)
              else Some (8, s1)
          | EmptyString => Some (8, s1)
          end
        else Some (10, s)
    | EmptyString => Some (10, s)
    end
  else None.

Definition ParseUint (s : string) (base bitSize : Z) : Z * option NumErr :=
  match s with
  | EmptyString => (0, Some ErrSyntax)
  | _ =>
      let base0 := base =? 0 in
      let s0 := s in
      match pickBase s base with
      | None => (0, Some ErrBase)
      | Some (base, s) =>
          let bitSize := if bitSize =? 0 then 64 else bitSize in
          if (bitSize <? 0) || (64 <? bitSize) then (0, Some ErrBitSize)
          else
            let cutoff := maxUint64 / base + 1 in
            let maxVal := uint64 (2 ^ bitSize - 1) in
            match parseLoop base base0 cutoff maxVal s 0 false with
            | (v, Some e, _) => (v, Some e)
            | (n, None, underscores) =>
                if underscores && negb (underscoreOK s0)
                then (0, Some ErrSyntax)
                else (n, None)
            end
      end
  end.

(** [int64(x)] of a [uint64]. *)
Definition int64 (x : Z) : Z := (x + 2 ^ 63) mod 2 ^ 64 - 2 ^ 63.

Definition ParseInt (s : string) (base bitSize : Z) : Z * option NumErr :=
  match s with
  | EmptyString => (0, Some ErrSyntax)
  | String c s' =>
      let s0 := s in
      let '(neg, s) :=
        if Ascii.eqb c "+" then (false, s')
        else if Ascii.eqb c "-" then (true, s')
        else (false, s) in
      match ParseUint s base bitSize with
      | (_, Some ErrSyntax) => (0, Some ErrSyntax)
      | (_, Some ErrBase) => (0, Some ErrBase)
      | (_, Some ErrBitSize) => (0, Some ErrBitSize)
      | (un, _) =>
          let bitSize := if bitSize =? 0 then 64 else bitSize in
          let cutoff := uint64 (2 ^ (bitSize - 1)) in
          if negb neg && (cutoff <=? un) then (int64 (cutoff - 1), Some ErrRange)
          else if neg && (cutoff <? un) then (int64 (- int64 cutoff), Some ErrRange)
          else
            let n := int64 un in
            (if neg then int64 (- n) else n, None)
      end
  end.

(** The digit alphabet of [FormatInt]. *)
Definition digitChar (d : Z) : ascii :=
  if d <? 10 then chr (48 + d) else chr (97 + d - 10).

(** The loop of [formatBits], writing right to left in front of [acc]; the
    buffer of 65 bytes bounds the number of turns. *)
Fixpoint utoa (fuel : nat) (b u : Z) (acc : string) : string :=
  match fuel with
  | O => acc
  | S fuel' =>
      if b <=? u
      then utoa fuel' b (u / b) (String (digitChar (u mod b)) acc)
      else String (digitChar u) acc
  end.

Definition formatBits (u : Z) (base : Z) (neg : bool) : string :=
  let u := if neg then uint64 (- u) else u in
  let a := utoa 64 base u EmptyString in
  if neg then String "-" a else a.

Definition FormatInt (i : Z) (base : Z) : string :=
  formatBits (uint64 i) base (i <? 0).

(** *** ParseFloat *)

Definition float64 : Set := spec_float.

(** Rounding to the nearest [float64], ties to even, of [m * 2 ^ e]. *)
Definition roundBinary (neg : bool) (m e : Z) : float64 :=
  binary_normalize 53 1024 (if neg then - m else m) e neg.

(** Rounding to the nearest [float64] of [m * 10 ^ x] for [0 <= m].  For
    [x < 0] the quotient is taken with 64 bits or more and one sticky bit,
    which lies below the rounding position. *)
Definition roundDecimal (neg : bool) (m x : Z) : float64 :=
  if 0 <=? x then roundBinary neg (m * 10 ^ x) 0
  else
    let d := 10 ^ (- x) in
    let k := Z.max 0 (64 + Z.log2 d - Z.log2 m) in
    let q := (m * 2 ^ k) / d in
    let sticky := if (m * 2 ^ k) mod d =? 0 then 0 else 1 in
    roundBinary neg (2 * q + sticky) (- k - 1).

Definition isInf (f : float64) : bool :=
  match f with S754_infinity _ => true | _ => false end.

(** [commonPrefixLenIgnoreCase(s, prefix)], [prefix] being in lower case. *)
Fixpoint commonPrefixLenIgnoreCase (s prefix : string) : Z :=
  match s, prefix with
  | String c s', String p prefix' =>
      let c := if (65 <=? byte c) && (byte c <=? 90) then byte c + 32 else byte c in
      if c =? byte p then 1 + commonPrefixLenIgnoreCase s' prefix' else 0
  | _, _ => 0
  end.

(** [special]: the value and the number of bytes used. *)
Definition special (s : string) : option (float64 * Z) :=
  let inf (neg : bool) (nsign : Z) (s : string) :=
    let n := commonPrefixLenIgnoreCase s "infinity" in
    let n := if (3 <? n) && (n <? 8) then 3 else n in
    if (n =? 3) || (n =? 8) then Some (S754_infinity neg, nsign + n) else None in
  match s with
  | EmptyString => None
  | String c s' =>
      if Ascii.eqb c "+" then inf false 1 s'
      else if Ascii.eqb c "-" then inf true 1 s'
      else if Ascii.eqb c "i" || Ascii.eqb c "I" then inf false 0 s
      else if Ascii.eqb c "n" || Ascii.eqb c "N" then
        if commonPrefixLenIgnoreCase s "nan" =? 3 then Some (S754_nan, 3) else None
      else None
  end.

(** The state of [readFloat]'s digit loop.  The mantissa is kept in full: Go
    keeps 19 digits (16 in base 16) and a truncation flag and, when the flag
    is set, rounds from the whole literal, so the value is the same. *)
Record mantState : Set := MantState {
  mantissa : Z; nd : Z; dp : Z;
  sawdot : bool; sawdigits : bool; underscores : bool }.

(** The loop labelled [loop]: the state, the bytes used and the rest. *)
Fixpoint mantLoop (base : Z) (s : string) (st : mantState) (i : nat)
    : mantState * nat * string :=
  match s with
  | EmptyString => (st, i, s)
  | String c s' =>
      let '(MantState m n d dot dig us) := st in
      if Ascii.eqb c "_" then mantLoop base s' (MantState m n d dot dig true) (S i)
      else if Ascii.eqb c "." then
        if dot then (st, i, s)
        else mantLoop base s' (MantState m n n true dig us) (S i)
      else if isDigit c then
        if Ascii.eqb c "0" && (n =? 0)
        then mantLoop base s' (MantState m n (d - 1) dot true us) (S i)
        else mantLoop base s'
               (MantState (m * base + (byte c - 48)) (n + 1) d dot true us) (S i)
      else if (base =? 16) && (97 <=? lower c) && (lower c <=? 102) then
        mantLoop base s'
          (MantState (m * 16 + (lower c - 97 + 10)) (n + 1) d dot true us) (S i)
      else (st, i, s)
  end.

(** The exponent's digit loop: [e], [underscores], bytes used and the rest. *)
Fixpoint expLoop (s : string) (e : Z) (us : bool) (i : nat)
    : Z * bool * nat * string :=
  match s with
  | String c s' =>
      if Ascii.eqb c "_" then expLoop s' e true (S i)
      else if isDigit c then
        expLoop s' (if e <? 10000 then e * 10 + byte c - 48 else e) us (S i)
      else (e, us, i, s)
  | EmptyString => (e, us, i, s)
  end.

(** [readFloat]: mantissa, exponent, sign, base 16, bytes used; [None] is
    [ok == false]. *)
Definition readFloat (s : string) : option (Z * Z * bool * bool * nat) :=
  match s with
  | EmptyString => None
  | String c0 s0' =>
      let '(neg, i, r) :=
        if Ascii.eqb c0 "+" then (false, 1%nat, s0')
        else if Ascii.eqb c0 "-" then (true, 1%nat, s0')
        else (false, 0%nat, s) in
      let '(base, hex, i, r) :=
        match r with
        | String a (String b ((String _ _) as r')) =>
            if Ascii.eqb a "0" && (lower b =? 120)
            then (16, true, S (S i), r') else (10, false, i, r)
        | _ => (10, false, i, r)
        end in
      let '(MantState m n d dot dig us, i, r) :=
        mantLoop base r (MantState 0 0 0 false false false) i in
      if negb dig then None
      else
        let d := if dot then d else n in
        let '(d, n) := if hex then (d * 4, n * 4) else (d, n) in
        let expChar := if hex then 112 else 101 in
        let tail :=
          match r with
          | String c r1 =>
              if lower c =? expChar then
                match r1 with
                | EmptyString => None
                | String c1 r2 =>
                    let '(esign, i, r1) :=
                      if Ascii.eqb c1 "+" then (1, S (S i), r2)
                      else if Ascii.eqb c1 "-" then (-1, S (S i), r2)
                      else (1, S i, r1) in
                    match r1 with
                    | String c2 _ =>
                        if isDigit c2 then
                          let '(e, us, i, _) := expLoop r1 0 us i in
                          Some (d + e * esign, us, i)
                        else None
                    | EmptyString => None
                    end
                end
              else if hex then None else Some (d, us, i)
          | EmptyString => if hex then None else Some (d, us, i)
          end in
        match tail with
        | None => None
        | Some (d, us, i) =>
            let exp := if m =? 0 then 0 else d - n in
            if us && negb (underscoreOK (substring 0 i s)) then None
            else Some (m, exp, neg, hex, i)
        end
  end.

(** [atof64]: the value, the bytes used and the error. *)
Definition atof64 (s : string) : float64 * Z * option NumErr :=
  match special s with
  | Some (val, n) => (val, n, None)
  | None =>
      match readFloat s with
      | None => (S754_zero false, 0, Some ErrSyntax)
      | Some (m, exp, neg, hex, n) =>
          let f := if hex then roundBinary neg m exp else roundDecimal neg m exp in
          (f, Z.of_nat n, if isInf f then Some ErrRange else None)
      end
  end.

Definition ParseFloat (s : string) (bitSize : Z) : float64 * option NumErr :=
  let '(f, n, err) := atof64 s in
  if negb (n =? len s) &&
     match err with Some ErrSyntax => false | _ => true end
  then (S754_zero false, Some ErrSyntax)
  else (f, err).

End Strconv.

(** ** Package math/big: [Int.SetString] and [Int.String] *)

Module Big.

(** The character seen before, as [nat.scan] keeps it in [prev]: ['0'] for a
    digit, ['_'] for a separator, ['.'] for anything else. *)
Inductive prevChar : Set := PrevOther | PrevDigit | PrevSep.

(** The base prefix found: [0], ['b'], ['o'], ['x'] or ['0']. *)
Inductive basePrefix : Set := NoPrefix | PrefixB | PrefixO | PrefixX | Prefix0.

Definition MaxBase : Z := 62.

(** The digit value [d1] of a byte in base [b]. *)
Definition digitVal (b : Z) (ch : ascii) : Z :=
  if isDigit ch then byte ch - 48
  else if (97 <=? byte ch) && (byte ch <=? 122) then byte ch - 97 + 10
  else if (65 <=? byte ch) && (byte ch <=? 90) then
    if b <=? 36 then byte ch - 65 + 10 else byte ch - 65 + 36
  else MaxBase + 1.

(** The conversion loop of [nat.scan] with [fracOk == false]: the number, the
    digit count, [prev], [invalSep] and the bytes not read.  The digits are
    added to the number one at a time; Go adds them a word at a time. *)
Fixpoint scanLoop (base b : Z) (s : string) (z count : Z)
    (prev : prevChar) (invalSep : bool) : Z * Z * prevChar * bool * string :=
  match s with
  | EmptyString => (z, count, prev, invalSep, s)
  | String ch s' =>
      if Ascii.eqb ch "_" && (base =? 0) then
        scanLoop base b s' z count PrevSep
          (match prev with PrevDigit => invalSep | _ => true end)
      else
        let d1 := digitVal b ch in
        if b <=? d1 then (z, count, prev, invalSep, s)
        else scanLoop base b s' (z * b + d1) (count + 1) PrevDigit invalSep
  end.

(** [nat.scan(r, base, false)]: the number and the bytes not read, or an
    error. *)
Definition natScan (s : string) (base : Z) : option (Z * string) :=
  let '(b, prefix, count, prev, s) :=
    if base =? 0 then
      match s with
      | String ch s1 =>
          if Ascii.eqb ch "0" then
            match s1 with
            | EmptyString => (10, NoPrefix, 1, PrevDigit, s1)
            | String c1 s2 =>
                if Ascii.eqb c1 "b" || Ascii.eqb c1 "B" then (2, PrefixB, 0, PrevDigit, s2)
                else if Ascii.eqb c1 "o" || Ascii.eqb c1 "O" then (8, PrefixO, 0, PrevDigit, s2)
                else if Ascii.eqb c1 "x" || Ascii.eqb c1 "X" then (16, PrefixX, 0, PrevDigit, s2)
                else (8, Prefix0, 0, PrevDigit, s1)
            end
          else (10, NoPrefix, 0, PrevOther, s)
      | EmptyString => (10, NoPrefix, 0, PrevOther, s)
      end
    else (base, NoPrefix, 0, PrevOther, s) in
  let '(z, count, prev, invalSep, rest) := scanLoop base b s 0 count prev false in
  let sepErr := invalSep || match prev with PrevSep => true | _ => false end in
  if count =? 0 then
    match prefix with
    | Prefix0 => if sepErr then None else Some (0, rest)
    | _ => None
    end
  else if sepErr then None
  else Some (z, rest).

(** [Int.scan]: the sign, then the magnitude; zero has no sign. *)
Definition scan (s : string) (base : Z) : option (Z * string) :=
  match s with
  | EmptyString => None
  | String ch s' =>
      let '(neg, s) :=
        if Ascii.eqb ch "-" then (true, s')
        else if Ascii.eqb ch "+" then (false, s')
        else (false, s) in
      match natScan s base with
      | None => None
      | Some (a, rest) => Some (if neg then - a else a, rest)
      end
  end.

(** [z.SetString(s, base)]: the whole of [s] must be used. *)
Definition SetString (s : string) (base : Z) : option Z :=
  match scan s base with
  | Some (z, EmptyString) => Some z
  | _ => None
  end.

(** The digits of [x.Text(10)] for [0 <= u]. *)
Definition utoa (u : Z) : string :=
  Strconv.utoa (S (Z.to_nat (Z.log2 u))) 10 u EmptyString.

(** [x.String()], that is [x.Text(10)]. *)
Definition String_ (x : Z) : string :=
  if x <? 0 then String "-" (utoa (- x)) else utoa x.

(** [x.Int64()]: the low 64 bits of the magnitude as an [int64], negated for
    a negative [x]. *)
Definition Int64 (x : Z) : Z :=
  let v := Strconv.int64 (Z.abs x mod 2 ^ 64) in
  if x <? 0 then Strconv.int64 (- v) else v.

(** [new(big.Int).SetInt64(x)]. *)
Definition SetInt64 (x : Z) : Z := x.

(** [x.Cmp(y)]. *)
Definition Cmp (x y : Z) : Z :=
  match x ?= y with Lt => -1 | Eq => 0 | Gt => 1 end.

End Big.

(** ** Package regexp: the fragment that the identifier pattern needs *)

Module Regexp.

(** Syntax trees of patterns: a character class is a list of byte ranges. *)
Inductive Regexp : Set :=
| NoMatch
| EmptyMatch
| CharClass (ranges : list (ascii * ascii))
| Concat (r1 r2 : Regexp)
| Alternate (r1 r2 : Regexp)
| Star (r : Regexp)
| Plus (r : Regexp).

Fixpoint inClass (ranges : list (ascii * ascii)) (c : ascii) : bool :=
  match ranges with
  | nil => false
  | (lo, hi) :: ranges' =>
      ((byte lo <=? byte c) && (byte c <=? byte hi)) || inClass ranges' c
  end.

(** Does the pattern match the empty string? *)
Fixpoint nullable (r : Regexp) : bool :=
  match r with
  | NoMatch => false
  | EmptyMatch => true
  | CharClass _ => false
  | Concat r1 r2 => nullable r1 && nullable r2
  | Alternate r1 r2 => nullable r1 || nullable r2
  | Star _ => true
  | Plus r => nullable r
  end.

(** What is left of the pattern after the byte [c]. *)
Fixpoint deriv (c : ascii) (r : Regexp) : Regexp :=
  match r with
  | NoMatch => NoMatch
  | EmptyMatch => NoMatch
  | CharClass ranges => if inClass ranges c then EmptyMatch else NoMatch
  | Concat r1 r2 =>
      if nullable r1
      then Alternate (Concat (deriv c r1) r2) (deriv c r2)
      else Concat (deriv c r1) r2
  | Alternate r1 r2 => Alternate (deriv c r1) (deriv c r2)
  | Star r => Concat (deriv c r) (Star r)
  | Plus r => Concat (deriv c r) (Star r)
  end.

(** Does the pattern match a prefix of [s]? *)
Fixpoint matchPrefix (r : Regexp) (s : string) : bool :=
  nullable r ||
  match s with
  | EmptyString => false
  | String c s' => matchPrefix (deriv c r) s'
  end.

(** [re.MatchString(s)]: the pattern is not anchored, so a match may start at
    any position of [s] and end before the end of [s]. *)
Fixpoint MatchString (r : Regexp) (s : string) : bool :=
  matchPrefix r s ||
  match s with
  | EmptyString => false
  | String _ s' => MatchString r s'
  end.

(** The words of a pattern. *)
Inductive matches : Regexp -> string -> Prop :=
| m_empty : matches EmptyMatch EmptyString
| m_class ranges c : inClass ranges c = true -> matches (CharClass ranges) (String c EmptyString)
| m_concat r1 r2 s1 s2 : matches r1 s1 -> matches r2 s2 -> matches (Concat r1 r2) (s1 ++ s2)
| m_alt_l r1 r2 s : matches r1 s -> matches (Alternate r1 r2) s
| m_alt_r r1 r2 s : matches r2 s -> matches (Alternate r1 r2) s
| m_star_nil r : matches (Star r) EmptyString
| m_star_cons r s1 s2 : matches r s1 -> matches (Star r) s2 -> matches (Star r) (s1 ++ s2)
| m_plus r s1 s2 : matches r s1 -> matches (Star r) s2 -> matches (Plus r) (s1 ++ s2).

End Regexp.

(** ** Package lang: value.go *)

Module Lang.

(** [type valueType interface{}], holding one of the tag strings below. *)
Definition valueType : Set := string.

Definition stringType : valueType := "stringType".
Definition intType : valueType := "intType".
Definition bigIntType : valueType := "bigIntType".
Definition floatType : valueType := "floatType".
Definition varType : valueType := "varType".
Definition boolType : valueType := "boolType".
Definition astType : valueType := "astType".

(** Modelled from the spec: the parse-tree node [ASTNode] is declared outside
    value.go; the value core only needs its ordered sequence of children. *)
#[warnings="-register-all"] Inductive ASTNode : Set := mkASTNode (children : list ASTNode).

(** The seven struct types that implement the interface [Value]; a variable of
    interface type is an [option Value], [None] being [nil]. *)
Inductive Value : Set :=
| stringValue (value : string)
| intValue (value : Z)
| bigIntValue (value : Z)
| floatValue (value : Strconv.float64)
| varValue (value varName : string)
| boolValue (value : bool)
| astValue (astNodes : list ASTNode) (parentASTNode : ASTNode).

(** A Go [error]: [nil] or a message made by [errors.New]. *)
Definition error : Set := option string.

Definition getValueType (v : Value) : valueType :=
  match v with
  | stringValue _ => stringType
  | intValue _ => intType
  | bigIntValue _ => bigIntType
  | floatValue _ => floatType
  | varValue _ _ => varType
  | boolValue _ => boolType
  | astValue _ _ => astType
  end.

Definition typeConvError (from to : valueType) : error :=
  Some ("Cannot convert " ++ from ++ " to " ++ to)%string.

(** The range of an [int64] field. *)
Definition inInt64 (x : Z) : Prop := - 2 ^ 63 <= x < 2 ^ 63.

Definition inInt64b (x : Z) : bool := (- 2 ^ 63 <=? x) && (x <? 2 ^ 63).

(** [float64(x)] of an [int64]. *)
Definition float64_of_int64 (x : Z) : Strconv.float64 :=
  binary_normalize 53 1024 x 0 false.

(** *** The methods [to] *)

Definition stringValue_to (value : string) (targetType : valueType)
    : option Value * error :=
  let v := stringValue value in
  if String.eqb targetType stringType then (Some v, None)
  else (None, typeConvError (getValueType v) targetType).

Definition intValue_to (value : Z) (targetType : valueType) : option Value * error :=
  let v := intValue value in
  if String.eqb targetType intType then (Some v, None)
  else if String.eqb targetType bigIntType
  then (Some (bigIntValue (Big.SetInt64 value)), None)
  else if String.eqb targetType floatType
  then (Some (floatValue (float64_of_int64 value)), None)
  else (None, typeConvError (getValueType v) targetType).

Definition bigIntValue_to (value : Z) (targetType : valueType) : option Value * error :=
  let v := bigIntValue value in
  let fail := (None, typeConvError (getValueType v) targetType) in
  if String.eqb targetType intType then
    let intRep := Big.Int64 value in
    if Big.Cmp value (Big.SetInt64 intRep) =? 0
    then (Some (intValue intRep), None)
    else fail
  else fail.

Definition floatValue_to (value : Strconv.float64) (targetType : valueType)
    : option Value * error :=
  let v := floatValue value in
  if String.eqb targetType floatType then (Some v, None)
  else (None, typeConvError (getValueType v) targetType).

Definition varValue_to (value varName : string) (targetType : valueType)
    : option Value * error :=
  (None, typeConvError (getValueType (varValue value varName)) targetType).

Definition boolValue_to (value : bool) (targetType : valueType) : option Value * error :=
  (None, typeConvError (getValueType (boolValue value)) targetType).

Definition astValue_to (astNodes : list ASTNode) (parentASTNode : ASTNode)
    (targetType : valueType) : option Value * error :=
  (None, typeConvError (getValueType (astValue astNodes parentASTNode)) targetType).

(** [v.to(targetType)] through the interface. *)
Definition to (v : Value) (targetType : valueType) : option Value * error :=
  match v with
  | stringValue value => stringValue_to value targetType
  | intValue value => intValue_to value targetType
  | bigIntValue value => bigIntValue_to value targetType
  | floatValue value => floatValue_to value targetType
  | varValue value varName => varValue_to value varName targetType
  | boolValue value => boolValue_to value targetType
  | astValue astNodes parentASTNode => astValue_to astNodes parentASTNode targetType
  end.

(** *** The methods [ofType] *)

Definition stringValue_ofType (targetValue : string) : bool :=
  let valLen := len targetValue in
  if valLen <? 2 then false
  else
    match String.get 0 targetValue,
          String.get (Z.to_nat (valLen - 1)) targetValue with
    | Some f, Some l =>
        (Ascii.eqb f "'" && Ascii.eqb l "'")
        || (Ascii.eqb f "034" && Ascii.eqb l "034")
    | _, _ => false
    end.

Definition intValue_ofType (targetValue : string) : bool :=
  match Strconv.ParseInt targetValue 0 64 with
  | (_, Some _) => false
  | (_, None) => true
  end.

Definition bigIntValue_ofType (targetValue : string) : bool :=
  match Big.SetString targetValue 0 with
  | Some _ => true
  | None => false
  end.

Definition floatValue_ofType (targetValue : string) : bool :=
  match Strconv.ParseFloat targetValue 64 with
  | (_, Some _) => false
  | (_, None) => true
  end.

(** The syntax tree of the pattern ["[a-zA-Z]+[a-zA-Z0-9]*"]. *)
Definition varPattern : Regexp.Regexp :=
  Regexp.Concat
    (Regexp.Plus (Regexp.CharClass (("a", "z") :: ("A", "Z") :: nil)%char))
    (Regexp.Star
       (Regexp.CharClass (("a", "z") :: ("A", "Z") :: ("0", "9") :: nil)%char)).

(** [regexp.MatchString] compiles a valid pattern, so [err] is [nil]. *)
Definition varValue_ofType (targetValue : string) : bool :=
  let matched := Regexp.MatchString varPattern targetValue in
  if negb matched then false else true.

Definition boolValue_ofType (targetValue : string) : bool :=
  if String.eqb targetValue "true" || String.eqb targetValue "false"
  then true else false.

Definition astValue_ofType (targetValue : string) : bool := false.

(** [t.ofType(targetValue)] through the interface. *)
Definition ofType (t : Value) (targetValue : string) : bool :=
  match t with
  | stringValue _ => stringValue_ofType targetValue
  | intValue _ => intValue_ofType targetValue
  | bigIntValue _ => bigIntValue_ofType targetValue
  | floatValue _ => floatValue_ofType targetValue
  | varValue _ _ => varValue_ofType targetValue
  | boolValue _ => boolValue_ofType targetValue
  | astValue _ _ => astValue_ofType targetValue
  end.

(** *** The methods [newValue] *)

Definition stringValue_newValue (str : string) : option Value :=
  Some (stringValue str).

Definition intValue_newValue (str : string) : option Value :=
  match Strconv.ParseInt str 0 64 with
  | (_, Some _) => None
  | (intVal, None) => Some (intValue intVal)
  end.

(** On failure the method also prints a line, which is left out. *)
Definition bigIntValue_newValue (str : string) : option Value :=
  match Big.SetString str 0 with
  | None => None
  | Some bigIntVal => Some (bigIntValue bigIntVal)
  end.

Definition floatValue_newValue (str : string) : option Value :=
  match Strconv.ParseFloat str 64 with
  | (_, Some _) => None
  | (floatVal, None) => Some (floatValue floatVal)
  end.

Definition varValue_newValue (str : string) : option Value :=
  Some (varValue str str).

Definition boolValue_newValue (str : string) : option Value :=
  if String.eqb str "true" then Some (boolValue true) else Some (boolValue false).

Definition astValue_newValue (str : string) : option Value := None.

(** [t.newValue(str)] through the interface. *)
Definition newValue (t : Value) (str : string) : option Value :=
  match t with
  | stringValue _ => stringValue_newValue str
  | intValue _ => intValue_newValue str
  | bigIntValue _ => bigIntValue_newValue str
  | floatValue _ => floatValue_newValue str
  | varValue _ _ => varValue_newValue str
  | boolValue _ => boolValue_newValue str
  | astValue _ _ => astValue_newValue str
  end.

(** *** The methods [Str] *)

Definition stringValue_Str (value : string) : string := value.

Definition intValue_Str (value : Z) : string := Strconv.FormatInt value 10.

Definition bigIntValue_Str (value : Z) : string := Big.String_ value.

Definition varValue_Str (value : string) : string := value.

Definition boolValue_Str (value : bool) : string :=
  if Bool.eqb value true then "true" else "false".

Section Rendering.

(** [strconv.FormatFloat(f, 'g', -1, 64)] and the parse tree's printer
    [getASTStr] are taken as given. *)
Variable FormatFloat_g : Strconv.float64 -> string.
Variable getASTStr : ASTNode -> string.

(** [v.Str()] through the interface. *)
Definition Str (v : Value) : string :=
  match v with
  | stringValue value => stringValue_Str value
  | intValue value => intValue_Str value
  | bigIntValue value => bigIntValue_Str value
  | floatValue value => FormatFloat_g value
  | varValue value _ => varValue_Str value
  | boolValue value => boolValue_Str value
  | astValue _ parentASTNode => getASTStr parentASTNode
  end.

End Rendering.

(** *** The environment *)

(** Modelled from the spec: [LangEnv] is declared outside value.go.  It holds
    two mappings with unique keys, from variable names to bound values and from
    operator names to operator definitions, the type of which is left open.
    Indexing a Go map at a missing key gives [nil], which is [None] here; a
    key that is present holds a value, not [nil]. *)
Record LangEnv (Operator : Type) : Type := mkLangEnv {
  varMap : gmap string Value;
  opMap : gmap string Operator }.

Arguments mkLangEnv {Operator} _ _.
Arguments varMap {Operator} _.
Arguments opMap {Operator} _.

Definition getVarValue {Operator : Type} (env : LangEnv Operator)
    (varVal : option Value) : option Value * error :=
  match varVal with
  | Some v =>
      if String.eqb (getValueType v) varType then
        let varName := match v with varValue _ varName => varName | _ => EmptyString end in
        match varMap env !! varName with
        | Some val => (Some val, None)
        | None =>
            match opMap env !! varName with
            | Some _ => (varVal, None)
            | None => (None, Some ("Undefined variable: " ++ varName)%string)
            end
        end
      else (None, Some "Error while resolving variable.")
  | None => (None, Some "Error while resolving variable.")
  end.

(** *** Classification *)

(** Modelled from the spec: [builtinTypes] is declared outside value.go.  The
    registry lists one value of each variant but Ast, in the order String,
    Int, BigInt, Float, Bool, Var. *)
Definition builtinTypes : list Value :=
  stringValue EmptyString :: intValue 0 :: bigIntValue 0
  :: floatValue (S754_zero false) :: boolValue false
  :: varValue EmptyString EmptyString :: nil.

Section Classifier.

(** The loop of [getValue] calls two methods of each registry entry. *)
Context {T : Type}.
Variable recognize : T -> string -> bool.
Variable construct : T -> string -> option Value.

Fixpoint getValueIn (types : list T) (token : string) : option Value * error :=
  match types with
  | nil => (None, Some ("Could not get type for token: " ++ token)%string)
  | t :: types' =>
      if recognize t token then (construct t token, None)
      else getValueIn types' token
  end.

End Classifier.

Definition getValue {Operator : Type} (env : LangEnv Operator) (token : string)
    : option Value * error :=
  let types := builtinTypes in
  getValueIn ofType newValue types token.

(** *** The spec's words for two recognizers, to compare the code with *)

Definition isAlnum (c : ascii) : bool := isLetter c || isDigit c.

Fixpoint allAlnum (s : string) : bool :=
  match s with
  | EmptyString => true
  | String c s' => isAlnum c && allAlnum s'
  end.

(** [Var.recognize] as the spec words it: the whole token is one letter
    followed by letters and digits only. *)
Definition specVarRecognize (token : string) : bool :=
  match token with
  | String c rest => isLetter c && allAlnum rest
  | EmptyString => false
  end.

(** The payload of a String as the spec words it: the token without its
    first and its last byte, the delimiting quotes. *)
Definition specStringPayload (token : string) : string :=
  substring 1 (String.length token - 2) token.

Definition isQuote (c : ascii) : bool := Ascii.eqb c "'" || Ascii.eqb c "034".

(** *** Reading a [float64] as an integer, to state what a conversion keeps *)

(** The integer that a [float64] stands for, when it stands for one. *)
Definition float64_integer (f : Strconv.float64) : option Z :=
  match f with
  | S754_zero _ => Some 0
  | S754_finite s m e =>
      let v := if s then Zneg m else Zpos m in
      if 0 <=? e then Some (v * 2 ^ e)
      else if Zpos m mod 2 ^ (- e) =? 0 then Some (v / 2 ^ (- e))
      else None
  | _ => None
  end.

(** *** Shapes of tokens, to state what the recognizers do with them *)

(** Does the token have a letter or a digit in it? *)
Fixpoint hasAlnum (s : string) : bool :=
  match s with
  | EmptyString => false
  | String c s' => isAlnum c || hasAlnum s'
  end.

(** The token with its upper-case ASCII letters put in lower case. *)
Fixpoint foldCase (s : string) : string :=
  match s with
  | EmptyString => EmptyString
  | String c s' =>
      String (if (65 <=? byte c) && (byte c <=? 90) then chr (byte c + 32) else c)
             (foldCase s')
  end.

(** *** Decimal integer tokens, to state what classification does with them *)

Fixpoint allDigits (s : string) : bool :=
  match s with
  | EmptyString => true
  | String c s' => isDigit c && allDigits s'
  end.

(** The number that the digits spell in base ten, written after [acc]. *)
Fixpoint digitsValue (s : string) (acc : Z) : Z :=
  match s with
  | EmptyString => acc
  | String c s' => digitsValue s' (acc * 10 + (byte c - 48))
  end.

(** The sign and the digits of a token: a first byte [-] or [+] is its sign. *)
Definition signAndDigits (token : string) : bool * string :=
  match token with
  | String c rest =>
      if Ascii.eqb c "-" then (true, rest)
      else if Ascii.eqb c "+" then (false, rest)
      else (false, token)
  | EmptyString => (false, token)
  end.

(** A decimal integer token is an optional sign followed by one decimal digit
    or more; [decimalInteger] gives the number that it spells. *)
Definition decimalInteger (token : string) : option Z :=
  let '(neg, digits) := signAndDigits token in
  match digits with
  | EmptyString => None
  | String _ _ =>
      if allDigits digits
      then Some (if neg then - digitsValue digits 0 else digitsValue digits 0)
      else None
  end.

(** Is the first digit of the token a zero? *)
Definition leadingZero (token : string) : bool :=
  match snd (signAndDigits token) with
  | String c _ => Ascii.eqb c "0"
  | EmptyString => false
  end.

End Lang.

(** * Properties *)

(** ** Bytes and machine integers *)

Lemma byte_chr (n : Z) : 0 <= n < 256 -> byte (chr n) = n.
Proof.
  intros Hn. unfold byte, chr.
  rewrite N_ascii_embedding; lia.
Qed.

Lemma digitChar_small (d : Z) : 0 <= d < 10 -> Strconv.digitChar d = chr (48 + d).
Proof.
  intros Hd. unfold Strconv.digitChar.
  destruct (Z.ltb_spec d 10); [reflexivity | lia].
Qed.

Lemma byte_digitChar (d : Z) : 0 <= d < 10 -> byte (Strconv.digitChar d) = 48 + d.
Proof.
  intros Hd. rewrite digitChar_small by assumption. apply byte_chr. lia.
Qed.

Lemma isDigit_digitChar (d : Z) : 0 <= d < 10 -> isDigit (Strconv.digitChar d) = true.
Proof.
  intros Hd. unfold isDigit. rewrite byte_digitChar by assumption.
  apply andb_true_iff. split; apply Z.leb_le; lia.
Qed.

(** A byte is told from another by its code. *)
Lemma ascii_eqb_byte (c : ascii) (k : ascii) :
  byte c <> byte k -> Ascii.eqb c k = false.
Proof.
  intros Hne. apply Ascii.eqb_neq. intros ->. apply Hne. reflexivity.
Qed.

Lemma digitChar_not (d : Z) (k : ascii) :
  0 <= d < 10 -> byte k < 48 \/ 57 < byte k -> Ascii.eqb (Strconv.digitChar d) k = false.
Proof.
  intros Hd Hk. apply ascii_eqb_byte. rewrite byte_digitChar by assumption. lia.
Qed.

Lemma strconv_digitVal_digitChar (d : Z) :
  0 <= d < 10 -> Strconv.digitVal (Strconv.digitChar d) = Some d.
Proof.
  intros Hd. unfold Strconv.digitVal.
  rewrite isDigit_digitChar, byte_digitChar by assumption.
  f_equal. lia.
Qed.

Lemma big_digitVal_digitChar (b d : Z) :
  0 <= d < 10 -> Big.digitVal b (Strconv.digitChar d) = d.
Proof.
  intros Hd. unfold Big.digitVal.
  rewrite isDigit_digitChar, byte_digitChar by assumption. lia.
Qed.

Lemma two_64 : 2 ^ 64 = 18446744073709551616.
Proof. reflexivity. Qed.

Lemma two_63 : 2 ^ 63 = 9223372036854775808.
Proof. reflexivity. Qed.

Lemma uint64_small (x : Z) : 0 <= x < 18446744073709551616 -> Strconv.uint64 x = x.
Proof.
  intros Hx. unfold Strconv.uint64. rewrite two_64. apply Z.mod_small. exact Hx.
Qed.

Lemma int64_small (x : Z) :
  - 9223372036854775808 <= x < 9223372036854775808 -> Strconv.int64 x = x.
Proof.
  intros Hx. unfold Strconv.int64. rewrite two_63, two_64.
  rewrite Z.mod_small; lia.
Qed.

Lemma int64_range (x : Z) :
  - 9223372036854775808 <= Strconv.int64 x < 9223372036854775808.
Proof.
  unfold Strconv.int64. rewrite two_63, two_64.
  pose proof (Z.mod_pos_bound (x + 9223372036854775808) 18446744073709551616).
  lia.
Qed.

Lemma inInt64b_spec (x : Z) : Lang.inInt64b x = true <-> Lang.inInt64 x.
Proof.
  unfold Lang.inInt64b, Lang.inInt64.
  rewrite andb_true_iff, Z.leb_le, Z.ltb_lt. reflexivity.
Qed.

(** ** Decimal digits: [utoa] read back by the parsing loops *)

(** The constants of [ParseUint] for base 10 (or 8) and 64 bits. *)
Local Abbreviation cutoff10 := (Strconv.maxUint64 / 10 + 1).
Local Abbreviation maxVal64 := (Strconv.uint64 (2 ^ 64 - 1)).

Lemma cutoff10_eq : cutoff10 = 1844674407370955162.
Proof. reflexivity. Qed.

Lemma maxVal64_eq : maxVal64 = 18446744073709551615.
Proof. reflexivity. Qed.

(** One turn of [ParseUint]'s loop on a decimal digit that fits. *)
Lemma parseLoop_digit (base0 : bool) (d n : Z) (s : string) (us : bool) :
  0 <= d < 10 -> 0 <= n -> n * 10 + d <= 18446744073709551615 ->
  Strconv.parseLoop 10 base0 cutoff10 maxVal64 (String (Strconv.digitChar d) s) n us
  = Strconv.parseLoop 10 base0 cutoff10 maxVal64 s (n * 10 + d) us.
Proof.
  intros Hd Hn Hfit. cbn [Strconv.parseLoop].
  rewrite (digitChar_not d "_") by (assumption || (right; reflexivity)).
  cbn [andb]. rewrite strconv_digitVal_digitChar by assumption.
  rewrite cutoff10_eq, maxVal64_eq.
  destruct (Z.leb_spec 10 d); [lia |].
  destruct (Z.leb_spec 1844674407370955162 n); [lia |].
  rewrite (uint64_small (n * 10)) by lia.
  rewrite (uint64_small (n * 10 + d)) by lia.
  destruct (Z.ltb_spec (n * 10 + d) (n * 10)); [lia |].
  destruct (Z.ltb_spec 18446744073709551615 (n * 10 + d)); [lia |].
  reflexivity.
Qed.

(** One turn of the loop on a decimal digit that overflows 64 bits. *)
Lemma parseLoop_digit_overflow (base0 : bool) (d n : Z) (s : string) (us : bool) :
  0 <= d < 10 -> 0 <= n <= 18446744073709551615 ->
  18446744073709551615 < n * 10 + d ->
  Strconv.parseLoop 10 base0 cutoff10 maxVal64 (String (Strconv.digitChar d) s) n us
  = (maxVal64, Some Strconv.ErrRange, us).
Proof.
  intros Hd Hn Hover. cbn [Strconv.parseLoop].
  rewrite (digitChar_not d "_") by (assumption || (right; reflexivity)).
  cbn [andb]. rewrite strconv_digitVal_digitChar by assumption.
  rewrite cutoff10_eq, maxVal64_eq.
  destruct (Z.leb_spec 10 d); [lia |].
  destruct (Z.leb_spec 1844674407370955162 n); [reflexivity |].
  rewrite (uint64_small (n * 10)) by lia.
  assert (Hw : Strconv.uint64 (n * 10 + d) = n * 10 + d - 18446744073709551616).
  { unfold Strconv.uint64. rewrite two_64.
    symmetry. apply (Z.mod_unique_pos _ _ 1); lia. }
  rewrite Hw.
  destruct (Z.ltb_spec (n * 10 + d - 18446744073709551616) (n * 10)); [reflexivity | lia].
Qed.

Lemma pow10_succ (k : nat) : 10 ^ Z.of_nat (S k) = 10 * 10 ^ Z.of_nat k.
Proof. rewrite Nat2Z.inj_succ, Z.pow_succ_r by lia. reflexivity. Qed.

Lemma utoa_step (fuel : nat) (u : Z) (acc : string) :
  10 <= u ->
  Strconv.utoa (S fuel) 10 u acc
  = Strconv.utoa fuel 10 (u / 10) (String (Strconv.digitChar (u mod 10)) acc).
Proof.
  intros Hu. cbn [Strconv.utoa].
  destruct (Z.leb_spec 10 u); [reflexivity | lia].
Qed.

Lemma utoa_last (fuel : nat) (u : Z) (acc : string) :
  u < 10 -> Strconv.utoa (S fuel) 10 u acc = String (Strconv.digitChar u) acc.
Proof.
  intros Hu. cbn [Strconv.utoa].
  destruct (Z.leb_spec 10 u); [lia | reflexivity].
Qed.

(** Reading the digits of [u] back from zero gives [u], as long as [u] fits
    64 bits. *)
Lemma parseLoop_utoa (base0 : bool) (fuel : nat) :
  forall (u : Z) (acc : string) (us : bool),
    0 <= u <= 18446744073709551615 -> u < 10 ^ Z.of_nat fuel ->
    Strconv.parseLoop 10 base0 cutoff10 maxVal64 (Strconv.utoa fuel 10 u acc) 0 us
    = Strconv.parseLoop 10 base0 cutoff10 maxVal64 acc u us.
Proof.
  induction fuel as [| fuel IH]; intros u acc us Hu Hfuel.
  - cbn in Hfuel. assert (u = 0) by lia. subst u. reflexivity.
  - rewrite pow10_succ in Hfuel.
    destruct (Z.lt_ge_cases u 10) as [Hlt | Hge].
    + rewrite utoa_last by assumption.
      rewrite parseLoop_digit by lia. reflexivity.
    + rewrite utoa_step by assumption.
      pose proof (Z.div_mod u 10 ltac:(lia)) as Hdm.
      pose proof (Z.mod_pos_bound u 10 ltac:(lia)) as Hm.
      rewrite IH by lia.
      rewrite parseLoop_digit by lia.
      f_equal. lia.
Qed.

(** Reading the digits of a number beyond 64 bits stops with a range error. *)
Lemma parseLoop_utoa_overflow (base0 : bool) (fuel : nat) :
  forall (u : Z) (acc : string) (us : bool),
    18446744073709551615 < u -> u < 10 ^ Z.of_nat fuel ->
    Strconv.parseLoop 10 base0 cutoff10 maxVal64 (Strconv.utoa fuel 10 u acc) 0 us
    = (maxVal64, Some Strconv.ErrRange, us).
Proof.
  induction fuel as [| fuel IH]; intros u acc us Hu Hfuel.
  - cbn in Hfuel. lia.
  - rewrite pow10_succ in Hfuel.
    rewrite utoa_step by lia.
    pose proof (Z.div_mod u 10 ltac:(lia)) as Hdm.
    pose proof (Z.mod_pos_bound u 10 ltac:(lia)) as Hm.
    destruct (Z.le_gt_cases (u / 10) 18446744073709551615) as [Hfit | Hover].
    + rewrite parseLoop_utoa by lia.
      apply parseLoop_digit_overflow; lia.
    + apply IH; lia.
Qed.

(** The first byte of the digits of a positive number is a digit from 1 to 9. *)
Lemma utoa_head (fuel : nat) :
  forall (u : Z) (acc : string),
    1 <= u -> u < 10 ^ Z.of_nat fuel ->
    exists d rest, 1 <= d < 10 /\
      Strconv.utoa fuel 10 u acc = String (Strconv.digitChar d) rest.
Proof.
  induction fuel as [| fuel IH]; intros u acc Hu Hfuel.
  - cbn in Hfuel. lia.
  - rewrite pow10_succ in Hfuel.
    destruct (Z.lt_ge_cases u 10) as [Hlt | Hge].
    + exists u, acc. split; [lia | apply utoa_last; assumption].
    + rewrite utoa_step by assumption.
      pose proof (Z.div_mod u 10 ltac:(lia)) as Hdm.
      pose proof (Z.mod_pos_bound u 10 ltac:(lia)) as Hm.
      apply IH; lia.
Qed.

(** ** [ParseUint] and [ParseInt] on decimal digits *)

(** The digits of a number, as [FormatInt] and [Int.String] write them: any
    positive [fuel] that covers the number gives them. *)
Local Abbreviation decimal fuel u := (Strconv.utoa fuel 10 u EmptyString).

Lemma decimal_cases (fuel : nat) (u : Z) :
  0 <= u -> u < 10 ^ Z.of_nat (S fuel) ->
  (u = 0 /\ decimal (S fuel) u = "0") \/
  (1 <= u /\ exists d rest, 1 <= d < 10 /\
      decimal (S fuel) u = String (Strconv.digitChar d) rest).
Proof.
  intros Hu Hfuel. destruct (Z.eq_dec u 0) as [-> | Hne].
  - left. split; reflexivity.
  - right. split; [lia |]. apply utoa_head; lia.
Qed.

Lemma pickBase_decimal (d : Z) (rest : string) :
  1 <= d < 10 ->
  Strconv.pickBase (String (Strconv.digitChar d) rest) 0
  = Some (10, String (Strconv.digitChar d) rest).
Proof.
  intros Hd. unfold Strconv.pickBase. cbn [Z.leb andb Z.eqb Z.compare].
  rewrite ascii_eqb_byte; [reflexivity |].
  rewrite byte_digitChar by lia. change (byte "0") with 48. lia.
Qed.

(** [ParseUint] reads the digits of [u] as [u], or reports that it is out of
    range. *)
Lemma ParseUint_decimal (fuel : nat) (u : Z) :
  0 <= u -> u < 10 ^ Z.of_nat (S fuel) ->
  Strconv.ParseUint (decimal (S fuel) u) 0 64
  = if u <=? 18446744073709551615 then (u, None)
    else (18446744073709551615, Some Strconv.ErrRange).
Proof.
  intros Hu Hfuel.
  destruct (decimal_cases fuel u Hu Hfuel) as [[-> Hs] | [Hpos (d & rest & Hd & Hs)]].
  - rewrite Hs. reflexivity.
  - rewrite Hs. unfold Strconv.ParseUint.
    rewrite pickBase_decimal by assumption.
    cbn [Z.eqb Z.ltb Z.compare orb]. rewrite <- Hs.
    destruct (Z.leb_spec u 18446744073709551615) as [Hfit | Hover].
    + rewrite parseLoop_utoa by lia. reflexivity.
    + rewrite parseLoop_utoa_overflow by lia. reflexivity.
Qed.

Lemma decimal_not_sign (fuel : nat) (u : Z) :
  0 <= u -> u < 10 ^ Z.of_nat (S fuel) ->
  exists c rest, decimal (S fuel) u = String c rest /\ isDigit c = true.
Proof.
  intros Hu Hfuel.
  destruct (decimal_cases fuel u Hu Hfuel) as [[-> Hs] | [Hpos (d & rest & Hd & Hs)]].
  - exists "0"%char, EmptyString. split; [assumption | reflexivity].
  - exists (Strconv.digitChar d), rest. split; [assumption |].
    apply isDigit_digitChar. lia.
Qed.

Lemma isDigit_not (c k : ascii) :
  isDigit c = true -> byte k < 48 \/ 57 < byte k -> Ascii.eqb c k = false.
Proof.
  intros Hc Hk. apply ascii_eqb_byte.
  unfold isDigit in Hc. apply andb_true_iff in Hc as [H1 H2].
  apply Z.leb_le in H1, H2. lia.
Qed.

(** [ParseInt] on an optional minus sign and the digits of [u]. *)
Lemma ParseInt_decimal (fuel : nat) (u : Z) :
  0 <= u -> u < 10 ^ Z.of_nat (S fuel) ->
  Strconv.ParseInt (decimal (S fuel) u) 0 64
  = if u <? 9223372036854775808 then (u, None)
    else (9223372036854775807, Some Strconv.ErrRange).
Proof.
  intros Hu Hfuel.
  destruct (decimal_not_sign fuel u Hu Hfuel) as (c & rest & Hs & Hc).
  unfold Strconv.ParseInt. rewrite Hs.
  rewrite (isDigit_not c "+"), (isDigit_not c "-") by (assumption || (left; reflexivity)).
  rewrite <- Hs. rewrite ParseUint_decimal by assumption.
  cbn [Z.eqb negb andb].
  change (Strconv.uint64 (2 ^ (64 - 1))) with 9223372036854775808.
  destruct (Z.leb_spec u 18446744073709551615) as [Hfit | Hover].
  - destruct (Z.leb_spec 9223372036854775808 u) as [Hbig | Hsmall].
    + destruct (Z.ltb_spec u 9223372036854775808); [lia | reflexivity].
    + destruct (Z.ltb_spec u 9223372036854775808); [| lia].
      rewrite int64_small by lia. reflexivity.
  - destruct (Z.ltb_spec u 9223372036854775808); [lia | reflexivity].
Qed.

Lemma ParseInt_minus_decimal (fuel : nat) (u : Z) :
  0 <= u -> u < 10 ^ Z.of_nat (S fuel) ->
  Strconv.ParseInt (String "-" (decimal (S fuel) u)) 0 64
  = if u <=? 9223372036854775808 then (- u, None)
    else (- 9223372036854775808, Some Strconv.ErrRange).
Proof.
  intros Hu Hfuel.
  unfold Strconv.ParseInt.
  change (Ascii.eqb "-" "+") with false. change (Ascii.eqb "-" "-") with true.
  cbn iota. rewrite ParseUint_decimal by assumption.
  cbn [Z.eqb negb andb].
  change (Strconv.uint64 (2 ^ (64 - 1))) with 9223372036854775808.
  destruct (Z.leb_spec u 18446744073709551615) as [Hfit | Hover].
  - destruct (Z.ltb_spec 9223372036854775808 u) as [Hbig | Hsmall].
    + destruct (Z.leb_spec u 9223372036854775808); [lia | reflexivity].
    + destruct (Z.leb_spec u 9223372036854775808); [| lia].
      f_equal.
      destruct (Z.eq_dec u 9223372036854775808) as [-> | Hne]; [reflexivity |].
      rewrite (int64_small u) by lia. apply int64_small. lia.
  - destruct (Z.leb_spec u 9223372036854775808); [lia | reflexivity].
Qed.

(** ** [FormatInt] and [Int.String] *)

Lemma pow10_64 : 18446744073709551616 <= 10 ^ Z.of_nat 64.
Proof. vm_compute. discriminate. Qed.

Lemma FormatInt_nonneg (v : Z) :
  0 <= v < 9223372036854775808 -> Strconv.FormatInt v 10 = decimal 64 v.
Proof.
  intros Hv. unfold Strconv.FormatInt, Strconv.formatBits.
  destruct (Z.ltb_spec v 0); [lia |].
  rewrite uint64_small by lia. reflexivity.
Qed.

Lemma FormatInt_neg (v : Z) :
  - 9223372036854775808 <= v < 0 ->
  Strconv.FormatInt v 10 = String "-" (decimal 64 (- v)).
Proof.
  intros Hv. unfold Strconv.FormatInt, Strconv.formatBits.
  destruct (Z.ltb_spec v 0); [| lia].
  assert (Hu : Strconv.uint64 (- Strconv.uint64 v) = - v).
  { unfold Strconv.uint64. rewrite two_64.
    rewrite <- (Z.mod_unique_pos v 18446744073709551616 (-1) (v + 18446744073709551616)) by lia.
    symmetry. apply (Z.mod_unique_pos _ _ (-1)); lia. }
  rewrite Hu. reflexivity.
Qed.

(** [ParseInt] reads back what [FormatInt] writes. *)
Lemma ParseInt_FormatInt (v : Z) :
  Lang.inInt64 v -> Strconv.ParseInt (Strconv.FormatInt v 10) 0 64 = (v, None).
Proof.
  unfold Lang.inInt64. rewrite two_63. intros Hv.
  pose proof pow10_64 as Hp.
  destruct (Z.lt_ge_cases v 0) as [Hneg | Hpos].
  - rewrite FormatInt_neg by lia.
    rewrite ParseInt_minus_decimal by lia.
    destruct (Z.leb_spec (- v) 9223372036854775808); [| lia].
    f_equal. lia.
  - rewrite FormatInt_nonneg by lia.
    rewrite ParseInt_decimal by lia.
    destruct (Z.ltb_spec v 9223372036854775808); [reflexivity | lia].
Qed.

(** The number of turns [Int.String] is given covers the number. *)
Lemma fuel_log2 (u : Z) : 0 <= u -> u < 10 ^ Z.of_nat (S (Z.to_nat (Z.log2 u))).
Proof.
  intros Hu. rewrite Nat2Z.inj_succ, Z2Nat.id by apply Z.log2_nonneg.
  destruct (Z.eq_dec u 0) as [-> | Hne].
  - reflexivity.
  - destruct (Z.log2_spec u ltac:(lia)) as [_ Hlt].
    eapply Z.lt_le_trans; [exact Hlt |].
    apply Z.pow_le_mono_l. lia.
Qed.

Lemma String_nonneg (x : Z) :
  0 <= x -> Big.String_ x = decimal (S (Z.to_nat (Z.log2 x))) x.
Proof.
  intros Hx. unfold Big.String_, Big.utoa.
  destruct (Z.ltb_spec x 0); [lia | reflexivity].
Qed.

Lemma String_neg (x : Z) :
  x < 0 -> Big.String_ x = String "-" (decimal (S (Z.to_nat (Z.log2 (- x)))) (- x)).
Proof.
  intros Hx. unfold Big.String_, Big.utoa.
  destruct (Z.ltb_spec x 0); [reflexivity | lia].
Qed.

(** [ParseInt] on what [Int.String] writes: the number when it fits an
    [int64], a range error otherwise. *)
Lemma ParseInt_String (x : Z) :
  Strconv.ParseInt (Big.String_ x) 0 64
  = if Lang.inInt64b x then (x, None)
    else if x <? 0 then (- 9223372036854775808, Some Strconv.ErrRange)
    else (9223372036854775807, Some Strconv.ErrRange).
Proof.
  unfold Lang.inInt64b.
  change (- 2 ^ 63) with (-9223372036854775808).
  change (2 ^ 63) with 9223372036854775808.
  destruct (Z.lt_ge_cases x 0) as [Hneg | Hpos].
  - rewrite String_neg by assumption.
    rewrite ParseInt_minus_decimal by (lia || (apply fuel_log2; lia)).
    destruct (Z.ltb_spec x 0); [| lia].
    destruct (Z.ltb_spec x 9223372036854775808); [| lia].
    rewrite andb_true_r.
    destruct (Z.leb_spec (- x) 9223372036854775808);
      destruct (Z.leb_spec (- 9223372036854775808) x); try lia; [| reflexivity].
    f_equal. lia.
  - rewrite String_nonneg by assumption.
    rewrite ParseInt_decimal by (lia || (apply fuel_log2; lia)).
    destruct (Z.ltb_spec x 0); [lia |].
    destruct (Z.leb_spec (- 9223372036854775808) x); [| lia].
    cbn [andb].
    destruct (Z.ltb_spec x 9223372036854775808); reflexivity.
Qed.

(** ** [Int.SetString] on decimal digits *)

Lemma scanLoop_digit (d z count : Z) (s : string) (prev : Big.prevChar) (inv : bool) :
  0 <= d < 10 ->
  Big.scanLoop 0 10 (String (Strconv.digitChar d) s) z count prev inv
  = Big.scanLoop 0 10 s (z * 10 + d) (count + 1) Big.PrevDigit inv.
Proof.
  intros Hd. cbn [Big.scanLoop].
  rewrite (digitChar_not d "_") by (assumption || (right; reflexivity)).
  cbn [andb]. rewrite big_digitVal_digitChar by assumption.
  destruct (Z.leb_spec 10 d); [lia | reflexivity].
Qed.

Lemma scanLoop_utoa (fuel : nat) :
  forall (u count : Z) (acc : string) (prev : Big.prevChar) (inv : bool),
    0 <= u -> u < 10 ^ Z.of_nat fuel -> (0 < fuel)%nat -> 0 <= count ->
    exists count', count < count' /\
      Big.scanLoop 0 10 (Strconv.utoa fuel 10 u acc) 0 count prev inv
      = Big.scanLoop 0 10 acc u count' Big.PrevDigit inv.
Proof.
  induction fuel as [| fuel IH]; intros u count acc prev inv Hu Hfuel Hpos Hcount.
  - lia.
  - rewrite pow10_succ in Hfuel.
    destruct (Z.lt_ge_cases u 10) as [Hlt | Hge].
    + exists (count + 1). split; [lia |].
      rewrite utoa_last by assumption. rewrite scanLoop_digit by lia.
      reflexivity.
    + rewrite utoa_step by assumption.
      pose proof (Z.div_mod u 10 ltac:(lia)) as Hdm.
      pose proof (Z.mod_pos_bound u 10 ltac:(lia)) as Hm.
      assert (Hf : (0 < fuel)%nat).
      { destruct fuel; [cbn in Hfuel; lia | lia]. }
      destruct (IH (u / 10) count (String (Strconv.digitChar (u mod 10)) acc) prev inv)
        as (c1 & Hc1 & Heq); try lia.
      exists (c1 + 1). split; [lia |].
      rewrite Heq. rewrite scanLoop_digit by lia.
      f_equal. lia.
Qed.

Lemma natScan_decimal (fuel : nat) (u : Z) :
  0 <= u -> u < 10 ^ Z.of_nat (S fuel) ->
  Big.natScan (decimal (S fuel) u) 0 = Some (u, EmptyString).
Proof.
  intros Hu Hfuel.
  destruct (decimal_cases fuel u Hu Hfuel) as [[-> Hs] | [Hpos (d & rest & Hd & Hs)]].
  - rewrite Hs. reflexivity.
  - destruct (scanLoop_utoa (S fuel) u 0 EmptyString Big.PrevOther false)
      as (c & Hc & Heq); try lia.
    rewrite Hs in Heq |- *. unfold Big.natScan.
    cbn [Z.eqb].
    rewrite (ascii_eqb_byte _ "0")
      by (rewrite byte_digitChar by lia; change (byte "0") with 48; lia).
    rewrite Heq. cbn [Big.scanLoop orb].
    destruct (Z.eqb_spec c 0); [lia | reflexivity].
Qed.

Lemma scan_decimal (fuel : nat) (u : Z) :
  0 <= u -> u < 10 ^ Z.of_nat (S fuel) ->
  Big.scan (decimal (S fuel) u) 0 = Some (u, EmptyString).
Proof.
  intros Hu Hfuel.
  destruct (decimal_not_sign fuel u Hu Hfuel) as (c & rest & Hs & Hc).
  unfold Big.scan. rewrite Hs.
  rewrite (isDigit_not c "+"), (isDigit_not c "-") by (assumption || (left; reflexivity)).
  rewrite <- Hs. rewrite natScan_decimal by assumption. reflexivity.
Qed.

(** [SetString] reads back what [String] writes. *)
Lemma SetString_String (x : Z) : Big.SetString (Big.String_ x) 0 = Some x.
Proof.
  unfold Big.SetString.
  destruct (Z.lt_ge_cases x 0) as [Hneg | Hpos].
  - rewrite String_neg by assumption. unfold Big.scan.
    change (Ascii.eqb "-" "-") with true. cbn iota.
    rewrite natScan_decimal by (lia || (apply fuel_log2; lia)).
    f_equal. lia.
  - rewrite String_nonneg by assumption.
    rewrite scan_decimal by (lia || (apply fuel_log2; lia)). reflexivity.
Qed.

(** ** The matcher against the words of a pattern *)

Lemma append_cons (c : ascii) (s1 s2 : string) :
  (String c s1 ++ s2)%string = String c (s1 ++ s2).
Proof. reflexivity. Qed.

Lemma append_nil_r (s : string) : (s ++ EmptyString)%string = s.
Proof.
  induction s as [| c s IH]; [reflexivity |].
  rewrite append_cons, IH. reflexivity.
Qed.

Lemma append_assoc (s1 s2 s3 : string) :
  ((s1 ++ s2) ++ s3)%string = (s1 ++ (s2 ++ s3))%string.
Proof.
  induction s1 as [| c s1 IH]; [reflexivity |].
  rewrite !append_cons, IH. reflexivity.
Qed.

Lemma append_eq_nil (s1 s2 : string) :
  (s1 ++ s2)%string = EmptyString -> s1 = EmptyString /\ s2 = EmptyString.
Proof.
  destruct s1; [intros H; split; [reflexivity | exact H] |].
  rewrite append_cons. discriminate.
Qed.

Lemma append_eq_cons (s1 s2 s : string) (c : ascii) :
  (s1 ++ s2)%string = String c s ->
  (s1 = EmptyString /\ s2 = String c s) \/
  (exists s1', s1 = String c s1' /\ s = (s1' ++ s2)%string).
Proof.
  destruct s1 as [| c1 s1].
  - intros H. left. split; [reflexivity | exact H].
  - rewrite append_cons. intros H.
    right. injection H as -> <-. exists s1. split; reflexivity.
Qed.

Import Regexp.

Create HintDb re.

#[local] Hint Constructors matches : re.

Lemma matches_nil_nullable (r : Regexp) (s : string) :
  matches r s -> s = EmptyString -> nullable r = true.
Proof.
  induction 1 as [| | r1 r2 s1 s2 _ IH1 _ IH2 | r1 r2 s _ IH | r1 r2 s _ IH
                  | | | r s1 s2 _ IH1 _ _]; intros Hs; cbn; try reflexivity.
  - discriminate.
  - apply append_eq_nil in Hs as [H1 H2]. rewrite IH1, IH2 by assumption. reflexivity.
  - rewrite IH by assumption. reflexivity.
  - rewrite IH by assumption. apply orb_true_r.
  - apply append_eq_nil in Hs as [H1 _]. apply IH1. assumption.
Qed.

Lemma nullable_matches_nil (r : Regexp) : nullable r = true -> matches r EmptyString.
Proof.
  induction r as [| | ranges | r1 IH1 r2 IH2 | r1 IH1 r2 IH2 | r IH | r IH];
    cbn; intros H; try discriminate; eauto with re.
  - apply andb_true_iff in H as [H1 H2].
    change EmptyString with (EmptyString ++ EmptyString)%string. eauto with re.
  - apply orb_true_iff in H as [H | H]; eauto with re.
  - change EmptyString with (EmptyString ++ EmptyString)%string. eauto with re.
Qed.

Lemma nullable_spec (r : Regexp) : nullable r = true <-> matches r EmptyString.
Proof.
  split; [apply nullable_matches_nil |].
  intros H. eapply matches_nil_nullable; [exact H | reflexivity].
Qed.

Lemma deriv_sound (c : ascii) (r : Regexp) :
  forall s, matches (deriv c r) s -> matches r (String c s).
Proof.
  induction r as [| | ranges | r1 IH1 r2 IH2 | r1 IH1 r2 IH2 | r IH | r IH];
    cbn [deriv]; intros s H.
  - inversion H.
  - inversion H.
  - destruct (inClass ranges c) eqn:Hc; inversion H; subst. constructor. exact Hc.
  - destruct (nullable r1) eqn:Hn.
    + inversion H as [| | | ? ? ? H' | ? ? ? H' | | |]; subst.
      * inversion H' as [| | ? ? s1 s2 Ha Hb | | | | |]; subst.
        change (String c (s1 ++ s2)) with (String c s1 ++ s2)%string.
        eauto with re.
      * change (String c s) with (EmptyString ++ String c s)%string.
        apply m_concat; [apply nullable_matches_nil; exact Hn | auto].
    + inversion H as [| | ? ? s1 s2 Ha Hb | | | | |]; subst.
      change (String c (s1 ++ s2)) with (String c s1 ++ s2)%string.
      eauto with re.
  - inversion H; subst; eauto with re.
  - inversion H as [| | ? ? s1 s2 Ha Hb | | | | |]; subst.
    change (String c (s1 ++ s2)) with (String c s1 ++ s2)%string.
    eauto with re.
  - inversion H as [| | ? ? s1 s2 Ha Hb | | | | |]; subst.
    change (String c (s1 ++ s2)) with (String c s1 ++ s2)%string.
    eauto with re.
Qed.

Lemma deriv_complete (c : ascii) (r : Regexp) (w : string) :
  matches r w -> forall s, w = String c s -> matches (deriv c r) s.
Proof.
  induction 1 as [| ranges c' Hc | r1 r2 s1 s2 H1 IH1 H2 IH2 | r1 r2 w H IH
                  | r1 r2 w H IH | r | r s1 s2 H1 IH1 H2 IH2 | r s1 s2 H1 IH1 H2 IH2];
    intros s Hw; cbn [deriv].
  - discriminate.
  - injection Hw as -> <-. rewrite Hc. constructor.
  - apply append_eq_cons in Hw as [[-> ->] | (s1' & -> & ->)].
    + rewrite (matches_nil_nullable r1 EmptyString H1 eq_refl). eauto with re.
    + destruct (nullable r1); eauto with re.
  - eauto with re.
  - eauto with re.
  - discriminate.
  - apply append_eq_cons in Hw as [[-> ->] | (s1' & -> & ->)].
    + apply (IH2 s eq_refl).
    + eauto with re.
  - apply append_eq_cons in Hw as [[-> ->] | (s1' & -> & ->)].
    + apply (IH2 s eq_refl).
    + eauto with re.
Qed.

(** [matchPrefix] finds the words of the pattern that begin [s]. *)
Lemma matchPrefix_spec (s : string) :
  forall r, matchPrefix r s = true <->
    exists s1 s2, s = (s1 ++ s2)%string /\ matches r s1.
Proof.
  induction s as [| c s IH]; intros r; cbn [matchPrefix].
  - rewrite orb_false_r, nullable_spec. split.
    + intros H. exists EmptyString, EmptyString. split; [reflexivity | exact H].
    + intros (s1 & s2 & Hs & H). symmetry in Hs.
      apply append_eq_nil in Hs as [-> _]. exact H.
  - rewrite orb_true_iff, nullable_spec, IH. split.
    + intros [H | (s1 & s2 & -> & H)].
      * exists EmptyString, (String c s). split; [reflexivity | exact H].
      * exists (String c s1), s2. split; [reflexivity | apply deriv_sound; exact H].
    + intros (s1 & s2 & Hs & H). symmetry in Hs.
      apply append_eq_cons in Hs as [[-> _] | (s1' & -> & ->)].
      * left. exact H.
      * right. exists s1', s2. split; [reflexivity |].
        eapply deriv_complete; [exact H | reflexivity].
Qed.

(** [MatchString] holds exactly when some part of [s] is a word of the
    pattern. *)
Lemma MatchString_spec (r : Regexp) (s : string) :
  MatchString r s = true <->
    exists s0 s1 s2, s = (s0 ++ s1 ++ s2)%string /\ matches r s1.
Proof.
  induction s as [| c s IH]; cbn [MatchString].
  - rewrite orb_false_r, matchPrefix_spec. split.
    + intros (s1 & s2 & Hs & H). exists EmptyString, s1, s2. split; assumption.
    + intros (s0 & s1 & s2 & Hs & H). symmetry in Hs.
      apply append_eq_nil in Hs as [_ Hs]. apply append_eq_nil in Hs as [-> ->].
      exists EmptyString, EmptyString. split; [reflexivity | exact H].
  - rewrite orb_true_iff, matchPrefix_spec, IH. split.
    + intros [(s1 & s2 & Hs & H) | (s0 & s1 & s2 & -> & H)].
      * exists EmptyString, s1, s2. split; assumption.
      * exists (String c s0), s1, s2. split; [reflexivity | exact H].
    + intros (s0 & s1 & s2 & Hs & H). symmetry in Hs.
      apply append_eq_cons in Hs as [[-> Hs] | (s0' & -> & ->)].
      * left. exists s1, s2. split; [symmetry; exact Hs | exact H].
      * right. exists s0', s1, s2. split; [reflexivity | exact H].
Qed.

(** ** Conversion *)

Import Lang.

Lemma Int64_inInt64 (x : Z) : inInt64 x -> Big.Int64 x = x.
Proof.
  unfold inInt64. rewrite two_63. intros Hx. unfold Big.Int64. rewrite two_64.
  destruct (Z.ltb_spec x 0) as [Hneg | Hpos].
  - rewrite Z.mod_small by lia.
    destruct (Z.eq_dec x (-9223372036854775808)) as [-> | Hne]; [reflexivity |].
    rewrite (int64_small (Z.abs x)) by lia. rewrite int64_small by lia. lia.
  - rewrite Z.mod_small by lia. rewrite int64_small by lia. lia.
Qed.

Lemma Int64_range (x : Z) : inInt64 (Big.Int64 x).
Proof.
  unfold inInt64. rewrite two_63. unfold Big.Int64.
  destruct (x <? 0); apply int64_range.
Qed.

Lemma Cmp_eq (x y : Z) : (Big.Cmp x y =? 0) = (x =? y).
Proof.
  unfold Big.Cmp. rewrite (Z.eqb_compare x y).
  destruct (x ?= y); reflexivity.
Qed.

(** [bigIntValue.to] with target [intType], by the range of the number. *)
Lemma bigIntValue_to_intType (value : Z) :
  to (bigIntValue value) intType
  = if inInt64b value then (Some (intValue value), None)
    else (None, Some "Cannot convert bigIntType to intType").
Proof.
  cbn [to]. unfold bigIntValue_to. cbn [String.eqb intType Ascii.eqb Bool.eqb andb].
  change (String.eqb intType intType) with true. cbn iota.
  rewrite Cmp_eq. unfold Big.SetInt64.
  destruct (inInt64b value) eqn:Hr.
  - apply inInt64b_spec in Hr. rewrite Int64_inInt64 by assumption.
    rewrite Z.eqb_refl. reflexivity.
  - destruct (Z.eqb_spec value (Big.Int64 value)) as [Heq | Hne]; [| reflexivity].
    exfalso. pose proof (Int64_range value) as Hin. rewrite <- Heq in Hin.
    apply inInt64b_spec in Hin. congruence.
Qed.

(** C1 (as amended): a String, Int or Float value converted to its own tag
    is returned as it is; a Var, Bool or Ast value converts to no tag at all,
    its own included: the conversion fails with a "Cannot convert" error that
    names both tags. *)
Theorem C1_conversion_to_own_tag :
  (forall value, to (stringValue value) stringType = (Some (stringValue value), None)) /\
  (forall value, to (intValue value) intType = (Some (intValue value), None)) /\
  (forall value, to (floatValue value) floatType = (Some (floatValue value), None)) /\
  (forall value varName targetType,
      to (varValue value varName) targetType
      = (None, Some ("Cannot convert varType to " ++ targetType)%string)) /\
  (forall value targetType,
      to (boolValue value) targetType
      = (None, Some ("Cannot convert boolType to " ++ targetType)%string)) /\
  (forall astNodes parentASTNode targetType,
      to (astValue astNodes parentASTNode) targetType
      = (None, Some ("Cannot convert astType to " ++ targetType)%string)).
Proof.
  repeat split; intros; reflexivity.
Qed.

(** C1, counterexample: a Bool value converted to the Bool tag is not
    returned; the conversion fails. *)
Lemma C1_bool_to_bool_fails :
  to (boolValue true) (getValueType (boolValue true))
    = (None, Some "Cannot convert boolType to boolType")
  /\ to (boolValue true) (getValueType (boolValue true)) <> (Some (boolValue true), None).
Proof.
  split; [reflexivity | discriminate].
Qed.

(** What [bigIntValue.to] does with its own tag: it has no case for it. *)
Lemma bigIntValue_to_bigIntType (value : Z) :
  to (bigIntValue value) bigIntType
  = (None, Some "Cannot convert bigIntType to bigIntType").
Proof. reflexivity. Qed.

(** C4: a BigInt converts to Int, with the same number, exactly when the
    number is in the range of a 64-bit signed integer; otherwise the
    conversion fails with the "Cannot convert" error. *)
Theorem C4_bigInt_to_int_iff_representable (value : Z) :
  (inInt64 value <-> to (bigIntValue value) intType = (Some (intValue value), None)) /\
  (~ inInt64 value <->
   to (bigIntValue value) intType = (None, Some "Cannot convert bigIntType to intType")).
Proof.
  rewrite bigIntValue_to_intType. rewrite <- inInt64b_spec.
  destruct (inInt64b value); split; split; intros H;
    try reflexivity; try discriminate; try congruence.
Qed.

(** C5: an Int always converts to BigInt, with the same number, and that
    BigInt converts back to the Int it came from. *)
Theorem C5_int_bigInt_int_round_trip (value : Z) :
  inInt64 value ->
  exists big,
    to (intValue value) bigIntType = (Some big, None) /\
    big = bigIntValue value /\
    to big intType = (Some (intValue value), None).
Proof.
  intros Hv. exists (bigIntValue value). split; [reflexivity |]. split; [reflexivity |].
  rewrite bigIntValue_to_intType.
  apply inInt64b_spec in Hv. rewrite Hv. reflexivity.
Qed.

(** C5 at the smallest [int64]. *)
Lemma C5_round_trip_at_min_int64 :
  inInt64 (-9223372036854775808) /\
  exists big,
    to (intValue (-9223372036854775808)) bigIntType = (Some big, None) /\
    big = bigIntValue (-9223372036854775808) /\
    to big intType = (Some (intValue (-9223372036854775808)), None).
Proof.
  assert (H : inInt64 (-9223372036854775808)) by (unfold inInt64; simpl; lia).
  split; [exact H | apply (C5_int_bigInt_int_round_trip _ H)].
Defined.

(** C10: constructing a Bool never fails: the value is true for the token
    [true] and false for every other token. *)
Theorem C10_bool_construction_total (str : string) :
  exists b, boolValue_newValue str = Some (boolValue b)
            /\ (b = true <-> str = "true").
Proof.
  unfold boolValue_newValue.
  destruct (String.eqb_spec str "true") as [Heq | Hne].
  - exists true. split; [reflexivity |]. split; intros _; [exact Heq | reflexivity].
  - exists false. split; [reflexivity |]. split; intros H; [discriminate | contradiction].
Qed.

(** A token that the Bool recognizer rejects still constructs a Bool. *)
Example bool_construction_of_rejected_token :
  boolValue_ofType "yes" = false /\ boolValue_newValue "yes" = Some (boolValue false).
Proof. split; reflexivity. Qed.

(** ** Resolution *)

(** C3: resolving a Var gives the value bound to its name in the variable
    mapping; failing that, the Var itself when the name is bound in the
    operator mapping; failing both, an "Undefined variable" error that ends
    with the name. *)
Theorem C3_getVarValue_resolves {Operator : Type} (env : LangEnv Operator)
    (value varName : string) :
  (forall val, varMap env !! varName = Some val ->
     getVarValue env (Some (varValue value varName)) = (Some val, None)) /\
  (varMap env !! varName = None -> is_Some (opMap env !! varName) ->
     getVarValue env (Some (varValue value varName))
     = (Some (varValue value varName), None)) /\
  (varMap env !! varName = None -> opMap env !! varName = None ->
     getVarValue env (Some (varValue value varName))
     = (None, Some ("Undefined variable: " ++ varName)%string)).
Proof.
  unfold getVarValue. cbn [getValueType].
  change (String.eqb varType varType) with true. cbn iota.
  repeat split.
  - intros val ->. reflexivity.
  - intros -> [op ->]. reflexivity.
  - intros -> ->. reflexivity.
Qed.

(** C3 in the environment of the spec's examples: [x] bound to [Int(5)],
    the operator [+] bound, and [y] bound nowhere. *)
Lemma C3_resolves_in_sample_env :
  let env : LangEnv unit :=
    mkLangEnv (<["x" := intValue 5]> ∅) (<["+" := tt]> ∅) in
  getVarValue env (Some (varValue "x" "x")) = (Some (intValue 5), None) /\
  getVarValue env (Some (varValue "+" "+")) = (Some (varValue "+" "+"), None) /\
  getVarValue env (Some (varValue "y" "y")) = (None, Some "Undefined variable: y").
Proof.
  intros env.
  split; [| split].
  - apply (proj1 (C3_getVarValue_resolves env "x" "x")). reflexivity.
  - apply (proj1 (proj2 (C3_getVarValue_resolves env "+" "+"))).
    + reflexivity.
    + exists tt. reflexivity.
  - apply (proj2 (proj2 (C3_getVarValue_resolves env "y" "y"))); reflexivity.
Defined.

(** Resolution of anything but a Var fails with the generic message. *)
Lemma getVarValue_not_var {Operator : Type} (env : LangEnv Operator) (v : Value) :
  getValueType v <> varType ->
  getVarValue env (Some v) = (None, Some "Error while resolving variable.").
Proof.
  intros Hv. destruct v; try reflexivity. exfalso. apply Hv. reflexivity.
Qed.

(** ** Classification *)

(** The scenarios of the spec that the code agrees with. *)
Example classification_scenarios {Operator : Type} (env : LangEnv Operator) :
  getValue env "-17" = (Some (intValue (-17)), None) /\
  getValue env "abc123" = (Some (varValue "abc123" "abc123"), None) /\
  getValue env "0x1F" = (Some (intValue 31), None) /\
  getValue env "+" = (None, Some "Could not get type for token: +").
Proof.
  repeat split; vm_compute; reflexivity.
Qed.

(** ** The String recognizer and constructor *)

Lemma get_last (rest : string) :
  forall (f l : ascii),
    rest <> EmptyString ->
    String.get (String.length rest) (String f rest) = Some l ->
    exists mid, rest = (mid ++ String l EmptyString)%string.
Proof.
  induction rest as [| c r IH]; intros f l Hne Hget; [contradiction |].
  change (String.get (String.length r) (String c r) = Some l) in Hget.
  destruct r as [| c' r'].
  - injection Hget as ->. exists EmptyString. reflexivity.
  - destruct (IH c l ltac:(discriminate) Hget) as (mid & Hmid).
    exists (String c mid). rewrite append_cons, <- Hmid. reflexivity.
Qed.

(** A token the String recognizer accepts has two bytes or more and begins
    and ends with the same quote. *)
Lemma stringValue_ofType_shape (token : string) :
  stringValue_ofType token = true ->
  exists q mid, isQuote q = true /\
    token = String q (mid ++ String q EmptyString).
Proof.
  unfold stringValue_ofType, len.
  destruct (Z.ltb_spec (Z.of_nat (String.length token)) 2) as [| Hlen];
    [discriminate |].
  destruct token as [| f rest]; [cbn in Hlen; lia |].
  cbn [String.length] in *.
  change (String.get 0 (String f rest)) with (Some f).
  replace (Z.to_nat (Z.of_nat (S (String.length rest)) - 1))
    with (String.length rest) by lia.
  destruct (String.get (String.length rest) (String f rest)) as [l |] eqn:Hget;
    [| cbv beta iota; discriminate].
  intros Hq.
  assert (Hne : rest <> EmptyString).
  { intros ->. cbn in Hlen. lia. }
  destruct (get_last rest f l Hne Hget) as (mid & ->).
  exists f, mid.
  apply orb_true_iff in Hq as [Hq | Hq]; apply andb_true_iff in Hq as [Hf Hl];
    apply Ascii.eqb_eq in Hf, Hl; subst f l; split; reflexivity.
Qed.

Lemma stringValue_ofType_not_quote (c : ascii) (rest : string) :
  isQuote c = false -> stringValue_ofType (String c rest) = false.
Proof.
  unfold isQuote, stringValue_ofType. intros Hq.
  apply orb_false_iff in Hq as [H1 H2].
  destruct (len (String c rest) <? 2); [reflexivity |].
  change (String.get 0 (String c rest)) with (Some c).
  destruct (String.get _ (String c rest)); [| reflexivity].
  rewrite H1, H2. reflexivity.
Qed.

(** C7 (as amended): for every token the String recognizer accepts, the
    payload of the constructed String is the whole token, delimiting quotes
    included, and so is its rendering. *)
Theorem C7_string_payload_keeps_quotes (token : string) :
  stringValue_ofType token = true ->
  stringValue_newValue token = Some (stringValue token) /\
  stringValue_Str token = token /\
  exists q mid, isQuote q = true /\
    stringValue_Str token = String q (mid ++ String q EmptyString).
Proof.
  intros Hok. split; [reflexivity |]. split; [reflexivity |].
  apply stringValue_ofType_shape. exact Hok.
Qed.

(** C7 (as amended) at the token ['a']. *)
Lemma C7_payload_of_quoted_a :
  stringValue_ofType "'a'" = true /\
  stringValue_newValue "'a'" = Some (stringValue "'a'") /\
  stringValue_Str "'a'" = "'a'" /\
  exists q mid, isQuote q = true /\
    stringValue_Str "'a'" = String q (mid ++ String q EmptyString).
Proof.
  split; [reflexivity |].
  apply (C7_string_payload_keeps_quotes "'a'"). reflexivity.
Defined.

(** C7, counterexample: the accepted token ['a'] constructs a payload of
    three bytes, not the one byte between the quotes. *)
Lemma C7_payload_includes_quotes :
  stringValue_ofType "'a'" = true /\
  specStringPayload "'a'" = "a" /\
  stringValue_newValue "'a'" <> Some (stringValue (specStringPayload "'a'")) /\
  stringValue_Str "'a'" <> specStringPayload "'a'".
Proof.
  repeat split; try reflexivity; discriminate.
Qed.

(** ** The Var recognizer *)

Lemma inClass_letters (c : ascii) :
  inClass (("a", "z") :: ("A", "Z") :: nil)%char c = isLetter c.
Proof.
  unfold isLetter. cbn [inClass]. rewrite orb_false_r. reflexivity.
Qed.

Lemma inClass_alnum (c : ascii) :
  inClass (("a", "z") :: ("A", "Z") :: ("0", "9") :: nil)%char c = isAlnum c.
Proof.
  unfold isAlnum, isLetter, isDigit. cbn [inClass].
  rewrite orb_false_r, orb_assoc. reflexivity.
Qed.

Lemma allAlnum_app (s1 s2 : string) :
  allAlnum (s1 ++ s2) = allAlnum s1 && allAlnum s2.
Proof.
  induction s1 as [| c s1 IH]; [reflexivity |].
  rewrite append_cons. cbn [allAlnum]. rewrite IH, andb_assoc. reflexivity.
Qed.

(** The words of a starred class are made of bytes of the class. *)
Lemma star_class_allAlnum (ranges : list (ascii * ascii)) (r : Regexp) (s : string) :
  (forall c, inClass ranges c = true -> isAlnum c = true) ->
  matches r s -> r = Star (CharClass ranges) -> allAlnum s = true.
Proof.
  intros Hsub. induction 1 as [| | | | | | r s1 s2 H1 _ H2 IH2 |];
    intros Hr; try discriminate; [reflexivity |].
  injection Hr as ->. rewrite allAlnum_app, IH2 by reflexivity.
  inversion H1; subst. cbn [allAlnum]. rewrite Hsub by assumption. reflexivity.
Qed.

Lemma allAlnum_star (s : string) :
  allAlnum s = true ->
  matches (Star (CharClass (("a", "z") :: ("A", "Z") :: ("0", "9") :: nil)%char)) s.
Proof.
  induction s as [| c s IH]; cbn [allAlnum]; intros H; [constructor |].
  apply andb_true_iff in H as [Hc Hs].
  change (String c s) with (String c EmptyString ++ s)%string.
  apply m_star_cons; [| auto].
  constructor. rewrite inClass_alnum. exact Hc.
Qed.

(** The identifier of the spec is a whole word of the pattern in the code. *)
Lemma specVarRecognize_spec (token : string) :
  specVarRecognize token = true <-> matches varPattern token.
Proof.
  unfold varPattern. split.
  - destruct token as [| c rest]; cbn [specVarRecognize]; [discriminate |].
    intros H. apply andb_true_iff in H as [Hc Hrest].
    change (String c rest) with (String c EmptyString ++ rest)%string.
    apply m_concat; [| apply allAlnum_star; exact Hrest].
    rewrite <- (append_nil_r (String c EmptyString)).
    apply m_plus; [| constructor].
    constructor. rewrite inClass_letters. exact Hc.
  - intros H.
    inversion H as [| | ? ? a b Ha Hb | | | | |]; subst.
    inversion Ha as [| | | | | | | ? a1 a2 Ha1 Ha2]; subst.
    inversion Ha1 as [| ? c Hc | | | | | |]; subst.
    rewrite append_assoc.
    change (isLetter c && allAlnum (a2 ++ b) = true).
    rewrite inClass_letters in Hc. rewrite Hc, allAlnum_app. cbn [andb].
    assert (Hl : forall c', inClass (("a", "z") :: ("A", "Z") :: nil)%char c' = true ->
                            isAlnum c' = true).
    { intros c'. rewrite inClass_letters. unfold isAlnum. intros ->. reflexivity. }
    assert (Hd : forall c',
               inClass (("a", "z") :: ("A", "Z") :: ("0", "9") :: nil)%char c' = true ->
               isAlnum c' = true).
    { intros c'. rewrite inClass_alnum. trivial. }
    rewrite (star_class_allAlnum _ _ a2 Hl Ha2 eq_refl).
    rewrite (star_class_allAlnum _ _ b Hd Hb eq_refl). reflexivity.
Qed.

(** What the code accepts: any token with a letter somewhere in it, since
    [MatchString] looks for the pattern anywhere in the token. *)
Lemma varValue_ofType_iff (token : string) :
  varValue_ofType token = true <->
    exists before c after,
      token = (before ++ String c after)%string /\ isLetter c = true.
Proof.
  unfold varValue_ofType.
  destruct (MatchString varPattern token) eqn:Hm; cbn [negb]; split;
    try discriminate; try reflexivity.
  - intros _. apply MatchString_spec in Hm as (s0 & s1 & s2 & -> & H).
    apply specVarRecognize_spec in H.
    destruct s1 as [| c rest]; [discriminate |].
    cbn [specVarRecognize] in H. apply andb_true_iff in H as [Hc _].
    exists s0, c, (rest ++ s2)%string. split; [reflexivity | exact Hc].
  - intros (before & c & after & -> & Hc). exfalso.
    assert (Ht : MatchString varPattern (before ++ String c after) = true).
    { apply MatchString_spec. exists before, (String c EmptyString), after.
      split; [reflexivity |].
      apply specVarRecognize_spec. cbn [specVarRecognize allAlnum].
      rewrite Hc. reflexivity. }
    congruence.
Qed.

(** The code accepts every identifier of the spec. *)
Lemma specVarRecognize_accepted (token : string) :
  specVarRecognize token = true -> varValue_ofType token = true.
Proof.
  intros H. apply varValue_ofType_iff.
  destruct token as [| c rest]; [discriminate |].
  cbn [specVarRecognize] in H. apply andb_true_iff in H as [Hc _].
  exists EmptyString, c, rest. split; [reflexivity | exact Hc].
Qed.

(** C6, failing input: the token [1a] begins with a digit, so it is no
    identifier, yet the Var recognizer accepts it and it classifies as a Var. *)
Theorem C6_var_recognizer_accepts_digit_first {Operator : Type} (env : LangEnv Operator) :
  specVarRecognize "1a" = false /\
  varValue_ofType "1a" = true /\
  getValue env "1a" = (Some (varValue "1a" "1a"), None).
Proof.
  repeat split; vm_compute; reflexivity.
Qed.

(** ** Rendering, then classifying *)

Lemma isDigit_not_quote (c : ascii) : isDigit c = true -> isQuote c = false.
Proof.
  intros Hc. unfold isQuote.
  rewrite (isDigit_not c "'"), (isDigit_not c "034")
    by (assumption || (left; reflexivity)).
  reflexivity.
Qed.

Lemma stringValue_ofType_decimal (fuel : nat) (u : Z) :
  0 <= u -> u < 10 ^ Z.of_nat (S fuel) ->
  stringValue_ofType (decimal (S fuel) u) = false.
Proof.
  intros Hu Hfuel.
  destruct (decimal_not_sign fuel u Hu Hfuel) as (c & rest & -> & Hc).
  apply stringValue_ofType_not_quote, isDigit_not_quote, Hc.
Qed.

Lemma stringValue_ofType_FormatInt (value : Z) :
  inInt64 value -> stringValue_ofType (Strconv.FormatInt value 10) = false.
Proof.
  unfold inInt64. rewrite two_63. intros Hv. pose proof pow10_64.
  destruct (Z.lt_ge_cases value 0).
  - rewrite FormatInt_neg by lia. apply stringValue_ofType_not_quote. reflexivity.
  - rewrite FormatInt_nonneg by lia. apply stringValue_ofType_decimal; lia.
Qed.

Lemma stringValue_ofType_String (x : Z) : stringValue_ofType (Big.String_ x) = false.
Proof.
  destruct (Z.lt_ge_cases x 0).
  - rewrite String_neg by lia. apply stringValue_ofType_not_quote. reflexivity.
  - rewrite String_nonneg by lia.
    apply stringValue_ofType_decimal; [lia | apply fuel_log2; lia].
Qed.

(** The loop of [getValue] over the registry, written out. *)
Lemma getValue_unfold {Operator : Type} (env : LangEnv Operator) (token : string) :
  getValue env token =
    if stringValue_ofType token then (stringValue_newValue token, None)
    else if intValue_ofType token then (intValue_newValue token, None)
    else if bigIntValue_ofType token then (bigIntValue_newValue token, None)
    else if floatValue_ofType token then (floatValue_newValue token, None)
    else if boolValue_ofType token then (boolValue_newValue token, None)
    else if varValue_ofType token then (varValue_newValue token, None)
    else (None, Some ("Could not get type for token: " ++ token)%string).
Proof. reflexivity. Qed.

Lemma getValue_intValue_Str {Operator : Type} (env : LangEnv Operator) (value : Z) :
  inInt64 value ->
  getValue env (intValue_Str value) = (Some (intValue value), None).
Proof.
  intros Hv. rewrite getValue_unfold. unfold intValue_Str.
  rewrite stringValue_ofType_FormatInt by assumption.
  unfold intValue_ofType, intValue_newValue.
  rewrite ParseInt_FormatInt by assumption. reflexivity.
Qed.

(** The rendering of a BigInt classifies as an Int when the number fits 64
    bits, since the Int recognizer comes first, and as a BigInt otherwise. *)
Lemma getValue_bigIntValue_Str {Operator : Type} (env : LangEnv Operator) (value : Z) :
  getValue env (bigIntValue_Str value)
  = if inInt64b value then (Some (intValue value), None)
    else (Some (bigIntValue value), None).
Proof.
  rewrite getValue_unfold. unfold bigIntValue_Str.
  rewrite stringValue_ofType_String.
  unfold intValue_ofType, intValue_newValue, bigIntValue_ofType, bigIntValue_newValue.
  rewrite ParseInt_String, SetString_String.
  destruct (inInt64b value); [reflexivity |].
  destruct (value <? 0); reflexivity.
Qed.

Section RenderClassify.

Context {Operator : Type} (env : LangEnv Operator).
Variable FormatFloat_g : Strconv.float64 -> string.
Variable getASTStr : ASTNode -> string.

Local Abbreviation render := (Str FormatFloat_g getASTStr).


End RenderClassify.



(** A String whose payload is not a quoted token does not come back either:
    its rendering classifies as whatever the bare text is. *)
Example string_payload_without_quotes {Operator : Type} (env : LangEnv Operator) :
  getValue env (stringValue_Str "abc") = (Some (varValue "abc" "abc"), None) /\
  getValue env (stringValue_Str "5") = (Some (intValue 5), None).
Proof. split; vm_compute; reflexivity. Qed.

(** ** Construction after recognition *)

(** What the loop of [getValue] returns, for any registry and any methods:
    the construction of the first entry that recognizes the token, with a nil
    error, whatever that construction is. *)
Lemma getValueIn_first {T : Type} (recognize : T -> string -> bool)
    (construct : T -> string -> option Value) (types : list T) (token : string) :
  getValueIn recognize construct types token
  = match List.find (fun t => recognize t token) types with
    | Some t => (construct t token, None)
    | None => (None, Some ("Could not get type for token: " ++ token)%string)
    end.
Proof.
  induction types as [| t types IH]; cbn [getValueIn List.find]; [reflexivity |].
  destruct (recognize t token); [reflexivity | exact IH].
Qed.

(** Each variant parses a token the same way to recognize it and to construct
    from it, so a recognized token always constructs, with the variant's tag. *)
Lemma recognized_constructs (t : Value) (token : string) :
  ofType t token = true ->
  exists v, newValue t token = Some v /\ getValueType v = getValueType t.
Proof.
  destruct t; cbn [ofType newValue getValueType].
  - intros _. eexists. split; reflexivity.
  - unfold intValue_ofType, intValue_newValue.
    destruct (Strconv.ParseInt token 0 64) as [n [e |]]; [discriminate |].
    intros _. eexists. split; reflexivity.
  - unfold bigIntValue_ofType, bigIntValue_newValue.
    destruct (Big.SetString token 0); [| discriminate].
    intros _. eexists. split; reflexivity.
  - unfold floatValue_ofType, floatValue_newValue.
    destruct (Strconv.ParseFloat token 64) as [f [e |]]; [discriminate |].
    intros _. eexists. split; reflexivity.
  - intros _. eexists. split; reflexivity.
  - unfold boolValue_newValue. intros _.
    destruct (String.eqb token "true"); eexists; split; reflexivity.
  - discriminate.
Qed.



(** * Further properties of value.go *)

(** ** The conversion matrix *)

(** Every conversion either returns a value that carries the requested tag,
    with a nil error, or returns nil with the "Cannot convert" error that names
    the tag of the value and the requested tag.  It succeeds on these pairs
    and no other: String to String, Int to Int, BigInt or Float, Float to
    Float, and BigInt to Int when the number fits an [int64]. *)
Theorem conversion_matrix (v : Value) (targetType : valueType) :
  let defined :=
    match v with
    | stringValue _ => targetType = stringType
    | intValue _ =>
        targetType = intType \/ targetType = bigIntType \/ targetType = floatType
    | bigIntValue value => targetType = intType /\ inInt64 value
    | floatValue _ => targetType = floatType
    | varValue _ _ | boolValue _ | astValue _ _ => False
    end in
  (defined ->
   exists w, to v targetType = (Some w, None) /\ getValueType w = targetType) /\
  (~ defined ->
   to v targetType
   = (None, Some ("Cannot convert " ++ getValueType v ++ " to " ++ targetType)%string)).
Proof.
  destruct v as [s | i | z | f | s n | b | l p]; cbn zeta; cbn [to getValueType].
  - unfold stringValue_to. destruct (String.eqb_spec targetType stringType) as [-> | Hne].
    + split; [intros _; eexists; split; reflexivity | intros H; contradiction].
    + split; [intros H; contradiction | intros _; reflexivity].
  - unfold intValue_to.
    destruct (String.eqb_spec targetType intType) as [-> | Hi].
    { split; [intros _; eexists; split; reflexivity | intros H; exfalso; apply H; auto]. }
    destruct (String.eqb_spec targetType bigIntType) as [-> | Hb].
    { split; [intros _; eexists; split; reflexivity | intros H; exfalso; apply H; auto]. }
    destruct (String.eqb_spec targetType floatType) as [-> | Hf].
    { split; [intros _; eexists; split; reflexivity | intros H; exfalso; apply H; auto]. }
    split; [intros [H | [H | H]]; contradiction | intros _; reflexivity].
  - destruct (String.eqb_spec targetType intType) as [-> | Hi].
    + change (bigIntValue_to z intType) with (to (bigIntValue z) intType).
      rewrite bigIntValue_to_intType.
      destruct (inInt64b z) eqn:Hr.
      * split; [intros _; eexists; split; reflexivity |].
        intros H. exfalso. apply H. split; [reflexivity | apply inInt64b_spec; exact Hr].
      * split; [| intros _; reflexivity].
        intros [_ H]. apply inInt64b_spec in H. congruence.
    + unfold bigIntValue_to.
      destruct (String.eqb_spec targetType intType); [contradiction |].
      split; [intros [H _]; contradiction | intros _; reflexivity].
  - unfold floatValue_to. destruct (String.eqb_spec targetType floatType) as [-> | Hne].
    + split; [intros _; eexists; split; reflexivity | intros H; contradiction].
    + split; [intros H; contradiction | intros _; reflexivity].
  - split; [intros [] | intros _; reflexivity].
  - split; [intros [] | intros _; reflexivity].
  - split; [intros [] | intros _; reflexivity].
Qed.

(** The matrix at a pair that is defined and at one that is not. *)
Lemma conversion_matrix_samples :
  (exists w, to (intValue 7) floatType = (Some w, None) /\ getValueType w = floatType) /\
  to (floatValue (S754_zero false)) intType
  = (None, Some "Cannot convert floatType to intType").
Proof.
  split.
  - apply (proj1 (conversion_matrix (intValue 7) floatType)).
    right. right. reflexivity.
  - apply (proj2 (conversion_matrix (floatValue (S754_zero false)) intType)).
    discriminate.
Defined.

(** Narrowing, then widening: whenever a BigInt converts to an Int, that Int
    converts back to the BigInt it came from. *)
Theorem bigInt_int_bigInt_round_trip (value : Z) (w : Value) :
  to (bigIntValue value) intType = (Some w, None) ->
  to w bigIntType = (Some (bigIntValue value), None).
Proof.
  rewrite bigIntValue_to_intType.
  destruct (inInt64b value); [| discriminate].
  intros H. injection H as <-. reflexivity.
Qed.

Lemma bigInt_int_bigInt_round_trip_at_max :
  to (bigIntValue 9223372036854775807) intType
    = (Some (intValue 9223372036854775807), None) /\
  to (intValue 9223372036854775807) bigIntType
    = (Some (bigIntValue 9223372036854775807), None).
Proof.
  assert (H : to (bigIntValue 9223372036854775807) intType
              = (Some (intValue 9223372036854775807), None)) by reflexivity.
  split; [exact H | exact (bigInt_int_bigInt_round_trip _ _ H)].
Defined.

(** ** The recognizers *)

Lemma get_append_last (mid : string) (q : ascii) :
  String.get (String.length mid) (mid ++ String q EmptyString) = Some q.
Proof.
  induction mid as [| c mid IH]; [reflexivity |].
  rewrite append_cons. exact IH.
Qed.

Lemma length_append (s1 s2 : string) :
  String.length (s1 ++ s2) = (String.length s1 + String.length s2)%nat.
Proof.
  induction s1 as [| c s1 IH]; [reflexivity |].
  rewrite append_cons. cbn [String.length]. rewrite IH. reflexivity.
Qed.

(** The String recognizer accepts exactly the tokens that begin and end with
    the same quote character, two separate bytes; what lies between them is
    not looked at, so quotes inside the token are accepted too. *)
Theorem string_recognizer_accepts_iff (token : string) :
  stringValue_ofType token = true <->
    exists q mid, isQuote q = true /\
      token = String q (mid ++ String q EmptyString).
Proof.
  split; [apply stringValue_ofType_shape |].
  intros (q & mid & Hq & ->).
  unfold stringValue_ofType, len. cbn [String.length].
  rewrite length_append. cbn [String.length].
  destruct (Z.ltb_spec (Z.of_nat (S (String.length mid + 1))) 2); [lia |].
  replace (Z.to_nat (Z.of_nat (S (String.length mid + 1)) - 1))
    with (S (String.length mid)) by lia.
  change (String.get 0 (String q (mid ++ String q EmptyString))) with (Some q).
  change (String.get (S (String.length mid)) (String q (mid ++ String q EmptyString)))
    with (String.get (String.length mid) (mid ++ String q EmptyString)).
  rewrite get_append_last.
  unfold isQuote in Hq.
  apply orb_true_iff in Hq as [Hq | Hq]; rewrite Hq; cbn [andb orb];
    [reflexivity | apply orb_true_r].
Qed.

(** The Var recognizer accepts exactly the tokens that have an ASCII letter
    somewhere in them: the pattern is looked for anywhere in the token. *)
Theorem var_recognizer_accepts_iff (token : string) :
  varValue_ofType token = true <->
    exists before c after,
      token = (before ++ String c after)%string /\ isLetter c = true.
Proof. apply varValue_ofType_iff. Qed.

(** A token in quotes is no number and no keyword: the Int, BigInt, Float
    and Bool recognizers reject every token that begins with a quote. *)
Theorem quoted_token_is_not_numeric (q : ascii) (rest : string) :
  isQuote q = true ->
  intValue_ofType (String q rest) = false /\
  bigIntValue_ofType (String q rest) = false /\
  floatValue_ofType (String q rest) = false /\
  boolValue_ofType (String q rest) = false.
Proof.
  intros Hq. unfold isQuote in Hq.
  assert (Hc : q = "'"%char \/ q = "034"%char).
  { apply orb_true_iff in Hq as [H | H]; apply Ascii.eqb_eq in H; auto. }
  destruct Hc as [-> | ->].
  - repeat split; try reflexivity.
    destruct rest as [| a [| b [| c r]]]; reflexivity.
  - repeat split; try reflexivity.
    destruct rest as [| a [| b [| c r]]]; reflexivity.
Qed.

Lemma quoted_token_is_not_numeric_sample :
  isQuote "'" = true /\
  intValue_ofType "'5'" = false /\ bigIntValue_ofType "'5'" = false /\
  floatValue_ofType "'5'" = false /\ boolValue_ofType "'5'" = false.
Proof.
  split; [reflexivity |].
  apply (quoted_token_is_not_numeric "'" "5'"). reflexivity.
Defined.

(** ** Classification over the registry *)

Lemma getValueIn_over_values (types : list Value) (token : string) :
  match List.find (fun t => ofType t token) types with
  | Some t =>
      exists v, getValueIn ofType newValue types token = (Some v, None) /\
                newValue t token = Some v /\
                getValueType v = getValueType t /\ getValueType v <> astType
  | None =>
      getValueIn ofType newValue types token
      = (None, Some ("Could not get type for token: " ++ token)%string)
  end.
Proof.
  rewrite getValueIn_first.
  destruct (List.find (fun t => ofType t token) types) as [t |] eqn:Hfind;
    [| reflexivity].
  apply List.find_some in Hfind as [_ Hrec].
  destruct (recognized_constructs t token Hrec) as (v & Hv & Htag).
  exists v. rewrite Hv. split; [reflexivity |]. split; [reflexivity |].
  split; [exact Htag |].
  rewrite Htag. destruct t; discriminate.
Qed.

(** Whatever values of the seven variants the registry lists, and in whatever
    order, the loop of [getValue] returns either a value with a nil error or
    nil with the "Could not get type for token" error; the value carries the
    tag of the first entry that recognizes the token, and it is never an
    Ast. *)
Theorem classification_over_any_registry (types : list Value) (token : string) :
  match List.find (fun t => ofType t token) types with
  | Some t =>
      exists v, getValueIn ofType newValue types token = (Some v, None) /\
                getValueType v = getValueType t /\ getValueType v <> astType
  | None =>
      getValueIn ofType newValue types token
      = (None, Some ("Could not get type for token: " ++ token)%string)
  end.
Proof.
  pose proof (getValueIn_over_values types token) as H.
  destruct (List.find (fun t => ofType t token) types) as [t |]; [| exact H].
  destruct H as (v & Hv & _ & Htag & Hast). exists v. auto.
Qed.

(** The Var recognizer comes last and catches every token with a letter: a
    token that has an ASCII letter anywhere always classifies. *)
Theorem token_with_letter_classifies {Operator : Type} (env : LangEnv Operator)
    (before after : string) (c : ascii) :
  isLetter c = true ->
  exists v, getValue env (before ++ String c after) = (Some v, None).
Proof.
  intros Hc. set (token := (before ++ String c after)%string).
  assert (Hvar : varValue_ofType token = true).
  { apply varValue_ofType_iff. exists before, c, after. split; [reflexivity | exact Hc]. }
  unfold getValue.
  pose proof (getValueIn_over_values builtinTypes token) as H.
  destruct (List.find (fun t => ofType t token) builtinTypes) as [t |] eqn:Hfind.
  - destruct H as (v & Hv & _). exists v. exact Hv.
  - exfalso.
    pose proof (List.find_none _ _ Hfind (varValue EmptyString EmptyString)) as Hn.
    cbn beta in Hn. cbn [ofType] in Hn. rewrite Hvar in Hn.
    assert (Hin : List.In (varValue EmptyString EmptyString) builtinTypes).
    { unfold builtinTypes. cbn. auto 10. }
    specialize (Hn Hin). discriminate.
Qed.

Lemma token_with_letter_classifies_sample :
  isLetter "a" = true /\
  exists v, getValue (mkLangEnv ∅ ∅ : LangEnv unit) ("-" ++ String "a" "+") = (Some v, None).
Proof.
  split; [reflexivity |].
  apply (token_with_letter_classifies (mkLangEnv ∅ ∅ : LangEnv unit) "-" "+" "a").
  reflexivity.
Defined.

(** What a classification that gave a value of a given variant says about
    the token. *)
Lemma getValue_inversion {Operator : Type} (env : LangEnv Operator)
    (token : string) (v : Value) :
  getValue env token = (Some v, None) ->
  match v with
  | stringValue value => value = token /\ stringValue_ofType token = true
  | intValue value =>
      stringValue_ofType token = false /\
      Strconv.ParseInt token 0 64 = (value, None)
  | bigIntValue value =>
      stringValue_ofType token = false /\ intValue_ofType token = false /\
      Big.SetString token 0 = Some value
  | floatValue value =>
      stringValue_ofType token = false /\ intValue_ofType token = false /\
      bigIntValue_ofType token = false /\
      Strconv.ParseFloat token 64 = (value, None)
  | boolValue value =>
      boolValue_ofType token = true /\ value = String.eqb token "true"
  | varValue value varName =>
      value = token /\ varName = token /\ boolValue_ofType token = false /\
      varValue_ofType token = true
  | astValue _ _ => False
  end.
Proof.
  rewrite getValue_unfold.
  destruct (stringValue_ofType token) eqn:Hs.
  { intros H. injection H as <-. split; reflexivity. }
  unfold intValue_ofType, intValue_newValue.
  destruct (Strconv.ParseInt token 0 64) as [n [e |]] eqn:Hi.
  2:{ intros H. injection H as <-. split; reflexivity. }
  unfold bigIntValue_ofType, bigIntValue_newValue.
  destruct (Big.SetString token 0) as [z |] eqn:Hb.
  { intros H. injection H as <-. repeat split. }
  unfold floatValue_ofType, floatValue_newValue.
  destruct (Strconv.ParseFloat token 64) as [f [e' |]] eqn:Hf.
  2:{ intros H. injection H as <-. repeat split. }
  destruct (boolValue_ofType token) eqn:Hbool.
  { unfold boolValue_newValue.
    destruct (String.eqb token "true"); intros H; injection H as <-; split; reflexivity. }
  destruct (varValue_ofType token) eqn:Hv; [| discriminate].
  intros H. injection H as <-. repeat split.
Qed.

(** A token classifies as a Bool exactly when it is [true] or [false], in
    lower case, and the Bool is true exactly for [true]. *)
Theorem bool_classification_iff {Operator : Type} (env : LangEnv Operator)
    (token : string) (value : bool) :
  getValue env token = (Some (boolValue value), None) <->
  (token = "true" /\ value = true) \/ (token = "false" /\ value = false).
Proof.
  split.
  - intros H. apply getValue_inversion in H. destruct H as [Hok Hval].
    unfold boolValue_ofType in Hok.
    destruct (String.eqb token "true") eqn:E1.
    + apply String.eqb_eq in E1. left. split; assumption.
    + destruct (String.eqb token "false") eqn:E2; [| discriminate].
      apply String.eqb_eq in E2. right. split; assumption.
  - intros [[-> ->] | [-> ->]]; vm_compute; reflexivity.
Qed.

(** ** Classification, then resolution *)

(** Resolving what classification made of a token: when the token classified
    as a Var, the token itself is the key looked up, first among the
    variables, then among the operators; when it classified as anything else,
    resolution fails with the generic error. *)
Theorem classify_then_resolve {Operator : Type} (env : LangEnv Operator)
    (token : string) (v : Value) :
  getValue env token = (Some v, None) ->
  getVarValue env (Some v) =
    if String.eqb (getValueType v) varType then
      match varMap env !! token with
      | Some val => (Some val, None)
      | None =>
          match opMap env !! token with
          | Some _ => (Some (varValue token token), None)
          | None => (None, Some ("Undefined variable: " ++ token)%string)
          end
      end
    else (None, Some "Error while resolving variable.").
Proof.
  intros H. apply getValue_inversion in H.
  destruct v; try reflexivity.
  destruct H as (-> & -> & _). reflexivity.
Qed.

Lemma classify_then_resolve_sample :
  let env : LangEnv unit := mkLangEnv (<["n" := intValue 3]> ∅) ∅ in
  getValue env "n" = (Some (varValue "n" "n"), None) /\
  getVarValue env (Some (varValue "n" "n")) = (Some (intValue 3), None).
Proof.
  intros env.
  assert (H : getValue env "n" = (Some (varValue "n" "n"), None)) by reflexivity.
  split; [exact H |].
  rewrite (classify_then_resolve env "n" _ H). reflexivity.
Defined.

(** Resolution of nil, or of a value that is not a Var, fails with the
    generic error whatever the environment binds. *)
Theorem resolution_of_non_var_fails {Operator : Type} (env : LangEnv Operator) :
  getVarValue env None = (None, Some "Error while resolving variable.") /\
  forall v, getValueType v <> varType ->
    getVarValue env (Some v) = (None, Some "Error while resolving variable.").
Proof.
  split; [reflexivity |]. intros v Hv. apply getVarValue_not_var. exact Hv.
Qed.

(** ** [ParseInt] and [Int.SetString] read the same integers *)

(** Facts about single bytes, by inspection of the 256 bytes. *)
Ltac each_byte c :=
  destruct c as [[|] [|] [|] [|] [|] [|] [|] [|]]; reflexivity.

Lemma lower_is_b (c : ascii) :
  (Strconv.lower c =? 98) = (Ascii.eqb c "b" || Ascii.eqb c "B").
Proof. each_byte c. Qed.

Lemma lower_is_o (c : ascii) :
  (Strconv.lower c =? 111) = (Ascii.eqb c "o" || Ascii.eqb c "O").
Proof. each_byte c. Qed.

Lemma lower_is_x (c : ascii) :
  (Strconv.lower c =? 120) = (Ascii.eqb c "x" || Ascii.eqb c "X").
Proof. each_byte c. Qed.

Lemma big_digitVal_small_base (b : Z) (c : ascii) :
  b <= 36 -> Big.digitVal b c = Big.digitVal 36 c.
Proof.
  intros Hb. unfold Big.digitVal.
  destruct (Z.leb_spec b 36); [reflexivity | lia].
Qed.

Lemma digitVal_agree36 (c : ascii) :
  Strconv.digitVal c
  = if Big.digitVal 36 c <? 36 then Some (Big.digitVal 36 c) else None.
Proof. each_byte c. Qed.

Lemma big_digitVal_nonneg36 (c : ascii) : (0 <=? Big.digitVal 36 c) = true.
Proof. each_byte c. Qed.

Lemma digit_test_10 (c : ascii) :
  implb (Big.digitVal 36 c <? 10) (isDigit c) = true.
Proof. each_byte c. Qed.

Lemma digit_test_16 (c : ascii) :
  implb (Big.digitVal 36 c <? 16)
    (isDigit c || (true && (97 <=? Strconv.lower c) && (Strconv.lower c <=? 102)))
  = true.
Proof. each_byte c. Qed.

(** The bases that base 0 can select. *)
Local Abbreviation base0_choice b := (b = 2 \/ b = 8 \/ b = 10 \/ b = 16).

Local Abbreviation cutoffOf b := (Strconv.maxUint64 / b + 1).

Lemma cutoff_spec (b z : Z) :
  base0_choice b -> (cutoffOf b <=? z) = (18446744073709551615 <? z * b).
Proof.
  intros [-> | [-> | [-> | ->]]].
  - change (cutoffOf 2) with 9223372036854775808.
    destruct (Z.leb_spec 9223372036854775808 z), (Z.ltb_spec 18446744073709551615 (z * 2));
      lia.
  - change (cutoffOf 8) with 2305843009213693952.
    destruct (Z.leb_spec 2305843009213693952 z), (Z.ltb_spec 18446744073709551615 (z * 8));
      lia.
  - change (cutoffOf 10) with 1844674407370955162.
    destruct (Z.leb_spec 1844674407370955162 z), (Z.ltb_spec 18446744073709551615 (z * 10));
      lia.
  - change (cutoffOf 16) with 1152921504606846976.
    destruct (Z.leb_spec 1152921504606846976 z), (Z.ltb_spec 18446744073709551615 (z * 16));
      lia.
Qed.

Lemma base0_choice_bounds (b : Z) : base0_choice b -> 2 <= b <= 16.
Proof. intros [-> | [-> | [-> | ->]]]; lia. Qed.

(** One turn of [nat.scan]'s loop, by the kind of byte. *)
Lemma scanLoop_sep (b z count : Z) (s : string) (prev : Big.prevChar) (inv : bool) :
  Big.scanLoop 0 b (String "_" s) z count prev inv
  = Big.scanLoop 0 b s z count Big.PrevSep
      (match prev with Big.PrevDigit => inv | _ => true end).
Proof. reflexivity. Qed.

Lemma scanLoop_other (b z count : Z) (c : ascii) (s : string)
    (prev : Big.prevChar) (inv : bool) :
  c <> "_"%char -> b <= 36 ->
  Big.scanLoop 0 b (String c s) z count prev inv
  = if b <=? Big.digitVal 36 c then (z, count, prev, inv, String c s)
    else Big.scanLoop 0 b s (z * b + Big.digitVal 36 c) (count + 1) Big.PrevDigit inv.
Proof.
  intros Hc Hb. cbn [Big.scanLoop].
  destruct (Ascii.eqb_spec c "_"); [contradiction |]. cbn [andb].
  rewrite (big_digitVal_small_base b c Hb). reflexivity.
Qed.

(** One turn of [ParseUint]'s loop, by the kind of byte. *)
Lemma parseLoop_sep (b cutoff maxVal n : Z) (s : string) (us : bool) :
  Strconv.parseLoop b true cutoff maxVal (String "_" s) n us
  = Strconv.parseLoop b true cutoff maxVal s n true.
Proof. reflexivity. Qed.

Lemma parseLoop_other (b n : Z) (c : ascii) (s : string) (us : bool) :
  c <> "_"%char -> base0_choice b -> 0 <= n <= 18446744073709551615 ->
  Strconv.parseLoop b true (cutoffOf b) maxVal64 (String c s) n us
  = if b <=? Big.digitVal 36 c then (0, Some Strconv.ErrSyntax, us)
    else if 18446744073709551615 <? n * b + Big.digitVal 36 c
    then (maxVal64, Some Strconv.ErrRange, us)
    else Strconv.parseLoop b true (cutoffOf b) maxVal64 s
           (n * b + Big.digitVal 36 c) us.
Proof.
  intros Hc Hb Hn. pose proof (base0_choice_bounds b Hb) as Hbb.
  pose proof (big_digitVal_nonneg36 c) as Hd0. apply Z.leb_le in Hd0.
  cbn [Strconv.parseLoop].
  destruct (Ascii.eqb_spec c "_"); [contradiction |]. cbn [andb].
  rewrite digitVal_agree36.
  destruct (Z.ltb_spec (Big.digitVal 36 c) 36) as [Hlt | Hge].
  2:{ destruct (Z.leb_spec b (Big.digitVal 36 c)); [reflexivity | lia]. }
  destruct (Z.leb_spec b (Big.digitVal 36 c)) as [Hbig | Hsmall]; [reflexivity |].
  rewrite cutoff_spec by assumption. rewrite maxVal64_eq.
  assert (Hnb : 0 <= n * b) by (apply Z.mul_nonneg_nonneg; lia).
  destruct (Z.ltb_spec 18446744073709551615 (n * b)) as [Hov | Hfit].
  { destruct (Z.ltb_spec 18446744073709551615 (n * b + Big.digitVal 36 c));
      [reflexivity | lia]. }
  rewrite (uint64_small (n * b)) by lia.
  destruct (Z.ltb_spec 18446744073709551615 (n * b + Big.digitVal 36 c)) as [Hov | Hfit'].
  - assert (Hw : Strconv.uint64 (n * b + Big.digitVal 36 c)
                 = n * b + Big.digitVal 36 c - 18446744073709551616).
    { unfold Strconv.uint64. rewrite two_64.
      symmetry. apply (Z.mod_unique_pos _ _ 1); lia. }
    rewrite Hw.
    destruct (Z.ltb_spec (n * b + Big.digitVal 36 c - 18446744073709551616) (n * b));
      [reflexivity | lia].
  - rewrite (uint64_small (n * b + Big.digitVal 36 c)) by lia.
    destruct (Z.ltb_spec (n * b + Big.digitVal 36 c) (n * b)); [lia |].
    destruct (Z.ltb_spec 18446744073709551615 (n * b + Big.digitVal 36 c));
      [lia | reflexivity].
Qed.

(** The number only grows along [nat.scan]'s loop; without a digit it stays. *)
Lemma scanLoop_grows (b : Z) (s : string) :
  2 <= b <= 16 ->
  forall z count prev inv z' count' prev' inv' rest,
    Big.scanLoop 0 b s z count prev inv = (z', count', prev', inv', rest) ->
    0 <= z ->
    z <= z' /\ count <= count' /\
    (count' = count ->
     z' = z /\ (s = rest \/ (rest = EmptyString /\ prev' = Big.PrevSep))
     \/ (rest <> EmptyString /\ z' = z)).
Proof.
  intros Hb. induction s as [| c s IH];
    intros z count prev inv z' count' prev' inv' rest H Hz.
  - cbn in H. injection H as <- <- <- <- <-.
    repeat split; try lia. intros _. left. split; [reflexivity | left; reflexivity].
  - destruct (Ascii.eqb_spec c "_") as [-> | Hc].
    + rewrite scanLoop_sep in H.
      destruct (IH _ _ _ _ _ _ _ _ _ H Hz) as (H1 & H2 & H3).
      repeat split; try assumption. intros Hcount.
      destruct (H3 Hcount) as [[Hz' [Hs | [Hr Hp]]] | [Hr Hz']].
      * subst rest. destruct s as [| c' s'].
        -- cbn in H. injection H as _ _ <- _. left. split; [exact Hz' |].
           right. split; reflexivity.
        -- right. split; [discriminate | exact Hz'].
      * left. split; [exact Hz' | right; split; assumption].
      * right. split; assumption.
    + rewrite scanLoop_other in H by (assumption || lia).
      pose proof (big_digitVal_nonneg36 c) as Hd0. apply Z.leb_le in Hd0.
      destruct (Z.leb_spec b (Big.digitVal 36 c)) as [Hbig | Hsmall].
      * injection H as <- <- <- <- <-.
        repeat split; try lia. intros _. left. split; [reflexivity | left; reflexivity].
      * assert (Hz2 : 0 <= z * b + Big.digitVal 36 c).
        { assert (0 <= z * b) by (apply Z.mul_nonneg_nonneg; lia). lia. }
        destruct (IH _ _ _ _ _ _ _ _ _ H Hz2) as (H1 & H2 & _).
        assert (z <= z * b) by nia.
        repeat split; try lia.
Qed.

(** [ParseUint]'s loop against [nat.scan]'s loop on the same digits: a range
    error when the number scanned is beyond 64 bits, a syntax error when the
    scan stopped before the end, the number scanned otherwise. *)
Lemma parseLoop_scanLoop (b : Z) (s : string) :
  base0_choice b ->
  forall z count prev inv us z' count' prev' inv' rest,
    Big.scanLoop 0 b s z count prev inv = (z', count', prev', inv', rest) ->
    0 <= z <= 18446744073709551615 ->
    exists us',
      Strconv.parseLoop b true (cutoffOf b) maxVal64 s z us
      = if 18446744073709551615 <? z' then (maxVal64, Some Strconv.ErrRange, us')
        else match rest with
             | EmptyString => (z', None, us')
             | _ => (0, Some Strconv.ErrSyntax, us')
             end.
Proof.
  intros Hb. pose proof (base0_choice_bounds b Hb) as Hbb.
  induction s as [| c s IH];
    intros z count prev inv us z' count' prev' inv' rest H Hz.
  - cbn in H. injection H as <- <- <- <- <-. exists us. cbn [Strconv.parseLoop].
    destruct (Z.ltb_spec 18446744073709551615 z); [lia | reflexivity].
  - destruct (Ascii.eqb_spec c "_") as [-> | Hc].
    + rewrite scanLoop_sep in H. rewrite parseLoop_sep.
      apply (IH _ _ _ _ true _ _ _ _ _ H Hz).
    + rewrite scanLoop_other in H by (assumption || lia).
      rewrite parseLoop_other by assumption.
      pose proof (big_digitVal_nonneg36 c) as Hd0. apply Z.leb_le in Hd0.
      destruct (Z.leb_spec b (Big.digitVal 36 c)) as [Hbig | Hsmall].
      * injection H as <- <- <- <- <-. exists us.
        destruct (Z.ltb_spec 18446744073709551615 z); [lia | reflexivity].
      * assert (Hz2 : 0 <= z * b + Big.digitVal 36 c).
        { assert (0 <= z * b) by (apply Z.mul_nonneg_nonneg; lia). lia. }
        destruct (Z.ltb_spec 18446744073709551615 (z * b + Big.digitVal 36 c))
          as [Hov | Hfit].
        -- exists us.
           destruct (scanLoop_grows b s Hbb _ _ _ _ _ _ _ _ _ H Hz2) as (Hle & _).
           destruct (Z.ltb_spec 18446744073709551615 z'); [reflexivity | lia].
        -- apply (IH _ _ _ _ us _ _ _ _ _ H). lia.
Qed.

(** Once set, [invalSep] stays set. *)
Lemma scanLoop_invalSep_sticky (b : Z) (s : string) :
  b <= 36 ->
  forall z count prev z' count' prev' inv' rest,
    Big.scanLoop 0 b s z count prev true = (z', count', prev', inv', rest) ->
    inv' = true.
Proof.
  intros Hb. induction s as [| c s IH]; intros z count prev z' count' prev' inv' rest H.
  - cbn in H. injection H as _ _ _ <- _. reflexivity.
  - destruct (Ascii.eqb_spec c "_") as [-> | Hc].
    + rewrite scanLoop_sep in H.
      replace (match prev with Big.PrevDigit => true | _ => true end) with true in H
        by (destruct prev; reflexivity).
      eapply IH; exact H.
    + rewrite scanLoop_other in H by assumption.
      destruct (b <=? Big.digitVal 36 c).
      * injection H as _ _ _ <- _. reflexivity.
      * eapply IH; exact H.
Qed.

(** The state [underscoreOK] keeps, for the state [nat.scan] keeps. *)
Local Abbreviation usStateOf prev :=
  (match prev with
   | Big.PrevOther => Strconv.UsStart
   | Big.PrevDigit => Strconv.UsDigit
   | Big.PrevSep => Strconv.UsSep
   end).

Local Abbreviation isSep prev :=
  (match prev with Big.PrevSep => true | _ => false end).

Lemma underscore_digit_test (b : Z) (c : ascii) :
  base0_choice b -> Big.digitVal 36 c < b ->
  isDigit c || ((b =? 16) && (97 <=? Strconv.lower c) && (Strconv.lower c <=? 102))
  = true.
Proof.
  intros Hb Hd.
  assert (H10 : b <= 10 -> isDigit c = true).
  { intros Hle. pose proof (digit_test_10 c) as H.
    destruct (Z.ltb_spec (Big.digitVal 36 c) 10); [exact H | lia]. }
  destruct Hb as [-> | [-> | [-> | ->]]]; try (rewrite H10 by lia; reflexivity).
  pose proof (digit_test_16 c) as H.
  destruct (Z.ltb_spec (Big.digitVal 36 c) 16); [exact H | lia].
Qed.

Lemma underscoreLoop_sep (hex : bool) (s : string) (i : Strconv.usState) :
  Strconv.underscoreLoop hex (String "_" s) i
  = match i with
    | Strconv.UsDigit => Strconv.underscoreLoop hex s Strconv.UsSep
    | _ => false
    end.
Proof. destruct hex; reflexivity. Qed.

(** [underscoreOK]'s pass over digits that [nat.scan] read to the end agrees
    with the separator errors that [nat.scan] found. *)
Lemma underscoreLoop_scanLoop (b : Z) (s : string) :
  base0_choice b ->
  forall z count prev z' count' prev' inv',
    Big.scanLoop 0 b s z count prev false = (z', count', prev', inv', EmptyString) ->
    Strconv.underscoreLoop (b =? 16) s (usStateOf prev)
    = negb (inv' || isSep prev').
Proof.
  intros Hb. pose proof (base0_choice_bounds b Hb) as Hbb.
  induction s as [| c s IH]; intros z count prev z' count' prev' inv' H.
  - cbn in H. injection H as _ _ <- <-. destruct prev; reflexivity.
  - destruct (Ascii.eqb_spec c "_") as [-> | Hc].
    + rewrite scanLoop_sep in H. rewrite underscoreLoop_sep.
      destruct prev.
      * apply scanLoop_invalSep_sticky in H; [| lia]. subst inv'. reflexivity.
      * apply (IH _ _ _ _ _ _ _ H).
      * apply scanLoop_invalSep_sticky in H; [| lia]. subst inv'. reflexivity.
    + rewrite scanLoop_other in H by (assumption || lia).
      destruct (Z.leb_spec b (Big.digitVal 36 c)) as [Hbig | Hsmall];
        [discriminate |].
      cbn [Strconv.underscoreLoop].
      rewrite (underscore_digit_test b c Hb Hsmall).
      apply (IH _ _ _ _ _ _ _ H).
Qed.

(** [ParseUint] has seen an underscore whenever [nat.scan] reports one out of
    place. *)
Lemma parseLoop_saw_underscore (b : Z) (s : string) :
  base0_choice b ->
  forall z count prev inv us z' count' prev' inv' rest v us',
    Big.scanLoop 0 b s z count prev inv = (z', count', prev', inv', rest) ->
    0 <= z <= 18446744073709551615 ->
    Strconv.parseLoop b true (cutoffOf b) maxVal64 s z us = (v, None, us') ->
    (us = true -> us' = true) /\
    (inv = false -> inv' = true -> us' = true) /\
    (isSep prev = false -> isSep prev' = true -> us' = true).
Proof.
  intros Hb. pose proof (base0_choice_bounds b Hb) as Hbb.
  induction s as [| c s IH];
    intros z count prev inv us z' count' prev' inv' rest v us' H Hz Hp.
  - cbn in H, Hp. injection H as _ _ <- <- _. injection Hp as _ <-.
    repeat split; congruence.
  - destruct (Ascii.eqb_spec c "_") as [-> | Hc].
    + rewrite scanLoop_sep in H. rewrite parseLoop_sep in Hp.
      destruct (IH _ _ _ _ _ _ _ _ _ _ _ _ H Hz Hp) as (Hs & _ & _).
      repeat split; intros; apply Hs; reflexivity.
    + rewrite scanLoop_other in H by (assumption || lia).
      rewrite parseLoop_other in Hp by assumption.
      destruct (Z.leb_spec b (Big.digitVal 36 c)) as [Hbig | Hsmall];
        [discriminate |].
      destruct (Z.ltb_spec 18446744073709551615 (z * b + Big.digitVal 36 c));
        [discriminate |].
      pose proof (big_digitVal_nonneg36 c) as Hd0. apply Z.leb_le in Hd0.
      assert (Hz2 : 0 <= z * b + Big.digitVal 36 c <= 18446744073709551615).
      { assert (0 <= z * b) by (apply Z.mul_nonneg_nonneg; lia). lia. }
      destruct (IH _ _ _ _ _ _ _ _ _ _ _ _ H Hz2 Hp) as (Hs & Hi & Hsep).
      repeat split; try assumption.
      intros _. apply Hsep. reflexivity.
Qed.

(** How [ParseUint] answers, for the answer of [nat.scan]: the same number
    when it fits 64 bits and a range error when it does not; an error when
    [nat.scan] fails or leaves bytes unread. *)
Local Abbreviation unsigned_agree scanned parsed :=
  (match scanned with
   | Some (u, EmptyString) =>
       0 <= u /\
       parsed = if u <=? 18446744073709551615 then (u, None)
                else (18446744073709551615, Some Strconv.ErrRange)
   | _ =>
       parsed = (0, Some Strconv.ErrSyntax) \/
       parsed = (18446744073709551615, Some Strconv.ErrRange)
   end).

Lemma unsigned_agree_digits (b : Z) (r s : string) (prev : Big.prevChar)
    (prefix : Big.basePrefix) :
  base0_choice b -> s <> EmptyString -> r <> EmptyString ->
  isSep prev = false ->
  Strconv.pickBase r 0 = Some (b, s) ->
  Strconv.underscoreOK r = Strconv.underscoreLoop (b =? 16) s (usStateOf prev) ->
  Big.natScan r 0 =
    (let '(z, count, prev, invalSep, rest) := Big.scanLoop 0 b s 0 0 prev false in
     let sepErr := invalSep || isSep prev in
     if count =? 0 then
       match prefix with
       | Big.Prefix0 => if sepErr then None else Some (0, rest)
       | _ => None
       end
     else if sepErr then None
     else Some (z, rest)) ->
  unsigned_agree (Big.natScan r 0) (Strconv.ParseUint r 0 64).
Proof.
  intros Hb Hs Hr Hprev Hpick Hus Hnat.
  pose proof (base0_choice_bounds b Hb) as Hbb.
  rewrite Hnat. unfold Strconv.ParseUint.
  destruct r as [| c0 r']; [contradiction |].
  rewrite Hpick, Hus. cbn [Z.eqb Z.ltb Z.compare orb].
  destruct (Big.scanLoop 0 b s 0 0 prev false)
    as [[[[z' count'] prev'] inv'] rest] eqn:Hscan.
  destruct (parseLoop_scanLoop b s Hb _ _ _ _ false _ _ _ _ _ Hscan ltac:(lia))
    as (us' & Hparse).
  destruct (scanLoop_grows b s Hbb _ _ _ _ _ _ _ _ _ Hscan ltac:(lia))
    as (Hz' & Hcnt & Hc0).
  change (Strconv.uint64 (2 ^ 64 - 1)) with 18446744073709551615 in *.
  rewrite Hparse.
  destruct (Z.ltb_spec 18446744073709551615 z') as [Hov | Hfit].
  - (* beyond 64 bits *)
    destruct (Z.eqb_spec count' 0) as [Hc | Hc].
    + exfalso. destruct (Hc0 Hc) as [[Hz _] | [_ Hz]]; lia.
    + destruct (inv' || isSep prev'); [right; reflexivity |].
      destruct rest; [| right; reflexivity].
      split; [lia |]. destruct (Z.leb_spec z' 18446744073709551615); [lia | reflexivity].
  - destruct rest as [| c rest'].
    + (* read to the end *)
      rewrite (underscoreLoop_scanLoop b s Hb _ _ _ _ _ _ _ Hscan).
      destruct (parseLoop_saw_underscore b s Hb _ _ _ _ _ _ _ _ _ _ _ _
                  Hscan ltac:(lia) Hparse) as (_ & Hinv & Hsep).
      destruct (inv' || isSep prev') eqn:Herr.
      * assert (Hus' : us' = true).
        { apply orb_true_iff in Herr as [H | H];
            [apply Hinv; [reflexivity | exact H] | apply Hsep; assumption]. }
        rewrite Hus'. cbn [negb andb].
        destruct (count' =? 0); [destruct prefix |]; left; reflexivity.
      * rewrite andb_false_r.
        destruct (Z.eqb_spec count' 0) as [Hc | Hc].
        -- exfalso. apply orb_false_iff in Herr as [_ Hp].
           destruct (Hc0 Hc) as [[_ [Hrest | [_ Hp']]] | [Hrest _]];
             [contradiction | rewrite Hp' in Hp; discriminate | contradiction].
        -- split; [lia |].
           destruct (Z.leb_spec z' 18446744073709551615); [reflexivity | lia].
    + (* stopped before the end *)
      destruct (count' =? 0); [destruct prefix |];
        destruct (inv' || isSep prev'); left; reflexivity.
Qed.

Lemma len_three (c0 c1 c2 : ascii) (s : string) :
  (3 <=? len (String c0 (String c1 (String c2 s)))) = true.
Proof. unfold len. cbn [String.length]. apply Z.leb_le. lia. Qed.

(** A base prefix followed by digits. *)
Lemma unsigned_agree_prefixed (c1 c2 : ascii) (s3 : string) (b : Z)
    (prefix : Big.basePrefix) :
  (c1 = "b"%char \/ c1 = "B"%char) /\ b = 2 /\ prefix = Big.PrefixB \/
  (c1 = "o"%char \/ c1 = "O"%char) /\ b = 8 /\ prefix = Big.PrefixO \/
  (c1 = "x"%char \/ c1 = "X"%char) /\ b = 16 /\ prefix = Big.PrefixX ->
  unsigned_agree (Big.natScan (String "0" (String c1 (String c2 s3))) 0)
    (Strconv.ParseUint (String "0" (String c1 (String c2 s3))) 0 64).
Proof.
  intros H.
  apply (unsigned_agree_digits b _ (String c2 s3) Big.PrevDigit prefix);
    try discriminate; try reflexivity.
  - destruct H as [(_ & -> & _) | [(_ & -> & _) | (_ & -> & _)]]; auto.
  - unfold Strconv.pickBase. cbn [Z.leb Z.eqb Z.compare andb Ascii.eqb Bool.eqb].
    change (Ascii.eqb "0" "0") with true. cbn iota. rewrite len_three. cbn [andb].
    destruct H as [([-> | ->] & -> & _) | [([-> | ->] & -> & _) | ([-> | ->] & -> & _)]];
      reflexivity.
  - destruct H as [([-> | ->] & -> & _) | [([-> | ->] & -> & _) | ([-> | ->] & -> & _)]];
      reflexivity.
  - destruct H as [([-> | ->] & -> & ->) | [([-> | ->] & -> & ->) | ([-> | ->] & -> & ->)]];
      reflexivity.
Qed.

(** [ParseUint] and [nat.scan] agree on every string. *)
Lemma unsigned_agree_all (r : string) :
  unsigned_agree (Big.natScan r 0) (Strconv.ParseUint r 0 64).
Proof.
  destruct r as [| c0 s1]; [left; reflexivity |].
  destruct (Ascii.eqb_spec c0 "0") as [-> | H0].
  - destruct s1 as [| c1 s2]; [split; [lia | reflexivity] |].
    destruct (Ascii.eqb_spec c1 "b") as [-> | Hb1].
    { destruct s2; [left; reflexivity |]. apply (unsigned_agree_prefixed _ _ _ 2 Big.PrefixB). auto. }
    destruct (Ascii.eqb_spec c1 "B") as [-> | Hb2].
    { destruct s2; [left; reflexivity |]. apply (unsigned_agree_prefixed _ _ _ 2 Big.PrefixB). auto. }
    destruct (Ascii.eqb_spec c1 "o") as [-> | Ho1].
    { destruct s2; [left; reflexivity |]. apply (unsigned_agree_prefixed _ _ _ 8 Big.PrefixO). auto 6. }
    destruct (Ascii.eqb_spec c1 "O") as [-> | Ho2].
    { destruct s2; [left; reflexivity |]. apply (unsigned_agree_prefixed _ _ _ 8 Big.PrefixO). auto 6. }
    destruct (Ascii.eqb_spec c1 "x") as [-> | Hx1].
    { destruct s2; [left; reflexivity |]. apply (unsigned_agree_prefixed _ _ _ 16 Big.PrefixX). auto 6. }
    destruct (Ascii.eqb_spec c1 "X") as [-> | Hx2].
    { destruct s2; [left; reflexivity |]. apply (unsigned_agree_prefixed _ _ _ 16 Big.PrefixX). auto 6. }
    (* the octal prefix 0 *)
    assert (E1 : Ascii.eqb c1 "b" || Ascii.eqb c1 "B" = false).
    { apply orb_false_iff. split; apply Ascii.eqb_neq; assumption. }
    assert (E2 : Ascii.eqb c1 "o" || Ascii.eqb c1 "O" = false).
    { apply orb_false_iff. split; apply Ascii.eqb_neq; assumption. }
    assert (E3 : Ascii.eqb c1 "x" || Ascii.eqb c1 "X" = false).
    { apply orb_false_iff. split; apply Ascii.eqb_neq; assumption. }
    apply (unsigned_agree_digits 8 _ (String c1 s2) Big.PrevDigit Big.Prefix0);
      try discriminate; try reflexivity; auto.
    + unfold Strconv.pickBase. cbn [Z.leb Z.eqb Z.compare andb].
      change (Ascii.eqb "0" "0") with true. cbn iota.
      rewrite lower_is_b, lower_is_o, lower_is_x, E1, E2, E3.
      rewrite !andb_false_r. reflexivity.
    + unfold Strconv.underscoreOK.
      change (Ascii.eqb "0" "-" || Ascii.eqb "0" "+") with false. cbn iota.
      change (Ascii.eqb "0" "0") with true.
      rewrite lower_is_b, lower_is_o, lower_is_x, E1, E2, E3. reflexivity.
    + unfold Big.natScan. cbn [Z.eqb].
      change (Ascii.eqb "0" "0") with true. cbn iota.
      apply orb_false_iff in E1 as [-> ->]. apply orb_false_iff in E2 as [-> ->].
      apply orb_false_iff in E3 as [-> ->]. reflexivity.
  - (* decimal *)
    destruct (Ascii.eqb_spec c0 "+") as [-> | Hp]; [left; reflexivity |].
    destruct (Ascii.eqb_spec c0 "-") as [-> | Hm]; [left; reflexivity |].
    apply (unsigned_agree_digits 10 _ (String c0 s1) Big.PrevOther Big.NoPrefix);
      try discriminate; try reflexivity; auto.
    + unfold Strconv.pickBase. cbn [Z.leb Z.eqb Z.compare andb].
      destruct (Ascii.eqb_spec c0 "0"); [contradiction | reflexivity].
    + unfold Strconv.underscoreOK.
      destruct (Ascii.eqb_spec c0 "-"); [contradiction |].
      destruct (Ascii.eqb_spec c0 "+"); [contradiction |]. cbn [orb].
      destruct (Ascii.eqb_spec c0 "0"); [contradiction |]. cbn [andb].
      destruct s1; reflexivity.
    + unfold Big.natScan. cbn [Z.eqb].
      destruct (Ascii.eqb_spec c0 "0"); [contradiction | reflexivity].
Qed.

(** [ParseInt] against [Int.SetString], both with base 0: a token that
    [SetString] reads as a number is read by [ParseInt] as the same number
    when it fits an [int64] and is a range error otherwise; a token that
    [SetString] refuses is an error for [ParseInt] too. *)
Lemma ParseInt_SetString (token : string) :
  match Big.SetString token 0 with
  | Some z =>
      Strconv.ParseInt token 0 64 =
        if inInt64b z then (z, None)
        else if z <? 0 then (- 9223372036854775808, Some Strconv.ErrRange)
        else (9223372036854775807, Some Strconv.ErrRange)
  | None => exists v e, Strconv.ParseInt token 0 64 = (v, Some e)
  end.
Proof.
  destruct token as [| c s']; [exists 0, Strconv.ErrSyntax; reflexivity |].
  unfold Big.SetString, Big.scan, Strconv.ParseInt.
  assert (Hsign :
    (if Ascii.eqb c "+" then (false, s')
     else if Ascii.eqb c "-" then (true, s') else (false, String c s'))
    = (if Ascii.eqb c "-" then (true, s')
       else if Ascii.eqb c "+" then (false, s') else (false, String c s'))).
  { destruct (Ascii.eqb_spec c "+") as [-> | ?]; [reflexivity |].
    destruct (Ascii.eqb c "-"); reflexivity. }
  rewrite Hsign.
  destruct (if Ascii.eqb c "-" then (true, s')
            else if Ascii.eqb c "+" then (false, s') else (false, String c s'))
    as [sgn r].
  pose proof (unsigned_agree_all r) as H.
  cbn [Z.eqb]. cbv zeta.
  change (Strconv.uint64 (2 ^ (64 - 1))) with 9223372036854775808.
  unfold inInt64b. change (- 2 ^ 63) with (-9223372036854775808).
  change (2 ^ 63) with 9223372036854775808.
  destruct (Big.natScan r 0) as [[u rest] |].
  - destruct rest as [| c' rest'].
    + destruct H as [Hu ->].
      destruct (Z.leb_spec u 18446744073709551615) as [Hfit | Hov]; destruct sgn;
        cbn [negb andb].
      * destruct (Z.ltb_spec 9223372036854775808 u).
        -- destruct (Z.leb_spec (-9223372036854775808) (- u)); [lia |]. cbn [andb].
           destruct (Z.ltb_spec (- u) 0); [reflexivity | lia].
        -- destruct (Z.leb_spec (-9223372036854775808) (- u)); [| lia].
           destruct (Z.ltb_spec (- u) 9223372036854775808); [| lia]. cbn [andb].
           f_equal.
           destruct (Z.eq_dec u 9223372036854775808) as [-> | Hne]; [reflexivity |].
           rewrite (int64_small u) by lia. apply int64_small. lia.
      * destruct (Z.leb_spec 9223372036854775808 u).
        -- destruct (Z.leb_spec (-9223372036854775808) u); [| lia].
           destruct (Z.ltb_spec u 9223372036854775808); [lia |]. cbn [andb].
           destruct (Z.ltb_spec u 0); [lia | reflexivity].
        -- destruct (Z.leb_spec (-9223372036854775808) u); [| lia].
           destruct (Z.ltb_spec u 9223372036854775808); [| lia]. cbn [andb].
           rewrite int64_small by lia. reflexivity.
      * destruct (Z.leb_spec (-9223372036854775808) (- u)); [lia |]. cbn [andb].
        destruct (Z.ltb_spec (- u) 0); [reflexivity | lia].
      * destruct (Z.leb_spec (-9223372036854775808) u); [| lia].
        destruct (Z.ltb_spec u 9223372036854775808); [lia |]. cbn [andb].
        destruct (Z.ltb_spec u 0); [lia | reflexivity].
    + destruct H as [-> | ->]; [eexists; eexists; reflexivity |].
      destruct sgn; eexists; eexists; reflexivity.
  - destruct H as [-> | ->]; [eexists; eexists; reflexivity |].
    destruct sgn; eexists; eexists; reflexivity.
Qed.

(** ** Int and BigInt tokens *)

(** Every token the Int recognizer accepts is accepted by the BigInt
    recognizer as well, and both construct the same number, which fits an
    [int64]: only the order of the registry makes such a token an Int. *)
Theorem int_token_is_bigInt_token (token : string) :
  intValue_ofType token = true ->
  bigIntValue_ofType token = true /\
  exists value,
    inInt64 value /\
    intValue_newValue token = Some (intValue value) /\
    bigIntValue_newValue token = Some (bigIntValue value).
Proof.
  unfold intValue_ofType, bigIntValue_ofType, intValue_newValue, bigIntValue_newValue.
  pose proof (ParseInt_SetString token) as H.
  destruct (Big.SetString token 0) as [z |].
  - rewrite H. destruct (inInt64b z) eqn:Hr.
    + intros _. split; [reflexivity |]. exists z.
      split; [apply inInt64b_spec; exact Hr | split; reflexivity].
    + destruct (z <? 0); discriminate.
  - destruct H as (v & e & ->). discriminate.
Qed.

Lemma int_token_is_bigInt_token_sample :
  intValue_ofType "0x_1F" = true /\
  bigIntValue_ofType "0x_1F" = true /\
  exists value,
    inInt64 value /\
    intValue_newValue "0x_1F" = Some (intValue value) /\
    bigIntValue_newValue "0x_1F" = Some (bigIntValue value).
Proof.
  split; [reflexivity |].
  apply (int_token_is_bigInt_token "0x_1F"). reflexivity.
Defined.

(** What classification builds keeps to the ranges: the number of an Int
    fits an [int64], and the number of a BigInt does not. *)
Theorem classified_numbers_keep_their_range {Operator : Type} (env : LangEnv Operator)
    (token : string) (value : Z) :
  (getValue env token = (Some (intValue value), None) -> inInt64 value) /\
  (getValue env token = (Some (bigIntValue value), None) -> ~ inInt64 value).
Proof.
  pose proof (ParseInt_SetString token) as H. split.
  - intros Hg. apply getValue_inversion in Hg as [_ Hp].
    destruct (Big.SetString token 0) as [z |].
    + rewrite Hp in H. destruct (inInt64b z) eqn:Hr.
      * injection H as ->. apply inInt64b_spec. exact Hr.
      * destruct (z <? 0); discriminate.
    + destruct H as (v & e & H). rewrite Hp in H. discriminate.
  - intros Hg. apply getValue_inversion in Hg as (_ & Hi & Hb).
    rewrite Hb in H. unfold intValue_ofType in Hi. rewrite H in Hi.
    intros Hr. apply inInt64b_spec in Hr. rewrite Hr in Hi. discriminate.
Qed.

Lemma classified_numbers_keep_their_range_samples :
  let env : LangEnv unit := mkLangEnv ∅ ∅ in
  (getValue env "-0b101" = (Some (intValue (-5)), None) /\ inInt64 (-5)) /\
  (getValue env "0x1_0000_0000_0000_0000"
     = (Some (bigIntValue 18446744073709551616), None)
   /\ ~ inInt64 18446744073709551616).
Proof.
  intros env. split.
  - assert (H : getValue env "-0b101" = (Some (intValue (-5)), None)) by reflexivity.
    split; [exact H |].
    exact (proj1 (classified_numbers_keep_their_range env _ _) H).
  - assert (H : getValue env "0x1_0000_0000_0000_0000"
                = (Some (bigIntValue 18446744073709551616), None)) by reflexivity.
    split; [exact H |].
    exact (proj2 (classified_numbers_keep_their_range env _ _) H).
Defined.

(** ** Classifying twice *)

Section Reclassify.

Context {Operator : Type} (env : LangEnv Operator).
Variable FormatFloat_g : Strconv.float64 -> string.
Variable getASTStr : ASTNode -> string.

(** Whatever token was classified, if the value is not a Float, rendering
    the value and classifying the rendering gives the same value again: the
    rendering is a canonical token for the value. *)
Theorem rendering_reclassifies (token : string) (v : Value) :
  getValue env token = (Some v, None) ->
  getValueType v <> floatType ->
  getValue env (Str FormatFloat_g getASTStr v) = (Some v, None).
Proof.
  intros Hg Hf.
  pose proof (classified_numbers_keep_their_range env token) as Hrange.
  pose proof (getValue_inversion env token v Hg) as Hinv.
  destruct v as [s | i | z | f | s n | b | l p]; cbn [Str].
  - destruct Hinv as [-> _]. exact Hg.
  - apply getValue_intValue_Str. apply (proj1 (Hrange i)). exact Hg.
  - rewrite getValue_bigIntValue_Str.
    destruct (inInt64b z) eqn:Hr; [| reflexivity].
    exfalso. apply (proj2 (Hrange z) Hg). apply inInt64b_spec. exact Hr.
  - exfalso. apply Hf. reflexivity.
  - destruct Hinv as (-> & -> & _). exact Hg.
  - destruct b; vm_compute; reflexivity.
  - contradiction.
Qed.

End Reclassify.

Lemma rendering_reclassifies_sample :
  let env : LangEnv unit := mkLangEnv ∅ ∅ in
  let render := Str (fun _ => EmptyString) (fun _ => EmptyString) in
  getValue env "+0x1F" = (Some (intValue 31), None) /\
  getValueType (intValue 31) <> floatType /\
  render (intValue 31) = "31" /\
  getValue env (render (intValue 31)) = (Some (intValue 31), None).
Proof.
  intros env render.
  assert (H : getValue env "+0x1F" = (Some (intValue 31), None)) by reflexivity.
  assert (Hf : getValueType (intValue 31) <> floatType) by discriminate.
  split; [exact H |]. split; [exact Hf |]. split; [reflexivity |].
  exact (rendering_reclassifies env _ _ "+0x1F" (intValue 31) H Hf).
Defined.

(** ** Int to Float *)

Lemma digits2_pos_bounds (p : positive) :
  2 ^ (Zpos (digits2_pos p) - 1) <= Zpos p < 2 ^ Zpos (digits2_pos p).
Proof.
  assert (Hstep : forall d : positive,
             2 ^ (Zpos (Pos.succ d) - 1) = 2 * 2 ^ (Zpos d - 1) /\
             2 ^ Zpos (Pos.succ d) = 2 * 2 ^ Zpos d).
  { intros d. rewrite Pos2Z.inj_succ.
    replace (Z.succ (Zpos d) - 1) with (Z.succ (Zpos d - 1)) by lia.
    split; apply Z.pow_succ_r; lia. }
  induction p as [p IH | p IH |]; cbn [digits2_pos].
  - destruct (Hstep (digits2_pos p)) as [-> ->]. rewrite (Pos2Z.inj_xI p).
    revert IH. generalize (2 ^ (Zpos (digits2_pos p) - 1)) (2 ^ Zpos (digits2_pos p)).
    intros lo hi IH. lia.
  - destruct (Hstep (digits2_pos p)) as [-> ->]. rewrite (Pos2Z.inj_xO p).
    revert IH. generalize (2 ^ (Zpos (digits2_pos p) - 1)) (2 ^ Zpos (digits2_pos p)).
    intros lo hi IH. lia.
  - cbn. lia.
Qed.

Lemma iter_xO_value (p k : positive) :
  Zpos (Pos.iter xO p k) = Zpos p * 2 ^ Zpos k.
Proof.
  induction k as [| k IH] using Pos.peano_ind.
  - cbn [Pos.iter]. rewrite Pos2Z.inj_xO. change (2 ^ 1) with 2. lia.
  - rewrite Pos.iter_succ, Pos2Z.inj_xO, IH, Pos2Z.inj_succ, Z.pow_succ_r by lia. lia.
Qed.

Lemma iter_xO_digits (p k : positive) :
  digits2_pos (Pos.iter xO p k) = (digits2_pos p + k)%positive.
Proof.
  induction k as [| k IH] using Pos.peano_ind.
  - cbn [Pos.iter digits2_pos]. lia.
  - rewrite Pos.iter_succ. cbn [digits2_pos]. rewrite IH. lia.
Qed.

(** A mantissa of 53 bits at an exponent from -52 to 0 goes through
    rounding unchanged. *)
Lemma binary_round_aux_exact (sx : bool) (m : positive) (e : Z) :
  Zpos (digits2_pos m) = 53 -> -52 <= e <= 0 ->
  binary_round_aux 53 1024 sx (Zpos m) e loc_Exact = S754_finite sx m e.
Proof.
  intros Hd He.
  unfold binary_round_aux, shr_fexp, fexp, emin, Zdigits2, shr_record_of_loc.
  rewrite Hd.
  replace (Z.max (53 + e - 53) (3 - 1024 - 53) - e) with 0 by lia.
  cbn [shr shr_m loc_of_shr_record round_nearest_even]. rewrite Hd.
  replace (Z.max (53 + e - 53) (3 - 1024 - 53) - e) with 0 by lia.
  cbn [shr shr_m].
  destruct (Z.leb_spec e (1024 - 53)); [reflexivity | lia].
Qed.

(** The float of a positive integer below [2 ^ 53]: the integer shifted left
    to 53 bits, at the exponent that undoes the shift. *)
Lemma binary_round_small (sx : bool) (p : positive) :
  Zpos p < 2 ^ 53 ->
  exists m e,
    binary_round 53 1024 sx p 0 = S754_finite sx m e /\
    -52 <= e <= 0 /\ Zpos m = Zpos p * 2 ^ (- e).
Proof.
  intros Hp. pose proof (digits2_pos_bounds p) as [Hlo _].
  assert (Hd : Zpos (digits2_pos p) <= 53).
  { destruct (Z.le_gt_cases (Zpos (digits2_pos p)) 53) as [H | H]; [exact H |].
    exfalso. assert (2 ^ 53 <= 2 ^ (Zpos (digits2_pos p) - 1))
      by (apply Z.pow_le_mono_r; lia). lia. }
  unfold binary_round, fexp, emin.
  replace (Z.max (Zpos (digits2_pos p) + 0 - 53) (3 - 1024 - 53))
    with (Zpos (digits2_pos p) - 53) by lia.
  unfold shl_align. rewrite Z.sub_0_r.
  destruct (Zpos (digits2_pos p) - 53) as [| k | k] eqn:Hk.
  - exists p, 0. rewrite binary_round_aux_exact by lia.
    split; [reflexivity |]. split; [lia |]. cbn. lia.
  - lia.
  - exists (Pos.iter xO p k), (Zneg k).
    rewrite binary_round_aux_exact.
    + split; [reflexivity |]. split; [lia |].
      rewrite iter_xO_value. reflexivity.
    + rewrite iter_xO_digits, Pos2Z.inj_add. lia.
    + lia.
Qed.

Lemma float64_integer_shifted (sx : bool) (p m : positive) (e : Z) :
  -52 <= e <= 0 -> Zpos m = Zpos p * 2 ^ (- e) ->
  float64_integer (S754_finite sx m e) = Some (if sx then Zneg p else Zpos p).
Proof.
  intros He Hm. unfold float64_integer.
  assert (Hpow : 0 < 2 ^ (- e)) by (apply Z.pow_pos_nonneg; lia).
  destruct (Z.leb_spec 0 e) as [H0 | Hneg].
  - assert (e = 0) by lia. subst e. change (2 ^ (- 0)) with 1 in Hm.
    change (2 ^ 0) with 1.
    assert (m = p) by lia. subst m. destruct sx; f_equal; lia.
  - rewrite Hm, Z.mod_mul by lia. cbn [Z.eqb]. f_equal.
    destruct sx.
    + change (Zneg m) with (- Zpos m). rewrite Hm, <- Z.mul_opp_l, Z.div_mul by lia.
      reflexivity.
    + rewrite Z.div_mul by lia. reflexivity.
Qed.

Lemma float64_of_int64_exact (value : Z) :
  - 2 ^ 53 <= value <= 2 ^ 53 ->
  float64_integer (float64_of_int64 value) = Some value.
Proof.
  change (2 ^ 53) with 9007199254740992. intros Hv.
  destruct (Z.eq_dec value 9007199254740992) as [-> | Hhi]; [reflexivity |].
  destruct (Z.eq_dec value (-9007199254740992)) as [-> | Hlo]; [reflexivity |].
  unfold float64_of_int64. destruct value as [| p | p]; [reflexivity | |];
    cbn [binary_normalize].
  - destruct (binary_round_small false p) as (m & e & -> & He & Hm).
    { change (2 ^ 53) with 9007199254740992. lia. }
    apply (float64_integer_shifted false p m e He Hm).
  - destruct (binary_round_small true p) as (m & e & -> & He & Hm).
    { change (2 ^ 53) with 9007199254740992. lia. }
    apply (float64_integer_shifted true p m e He Hm).
Qed.

(** An Int converts to the Float that stands for the same integer as long as
    its magnitude is at most [2 ^ 53]; the next Int, [2 ^ 53 + 1], already
    converts to the Float of [2 ^ 53]. *)
Theorem int_to_float_exact_up_to_2_53 :
  (forall value, - 2 ^ 53 <= value <= 2 ^ 53 ->
     exists f, to (intValue value) floatType = (Some (floatValue f), None) /\
               float64_integer f = Some value) /\
  to (intValue (2 ^ 53 + 1)) floatType = to (intValue (2 ^ 53)) floatType.
Proof.
  split; [| reflexivity].
  intros value Hv. exists (float64_of_int64 value).
  split; [reflexivity | apply float64_of_int64_exact; exact Hv].
Qed.

Lemma int_to_float_exact_samples :
  (- 2 ^ 53 <= -3 <= 2 ^ 53 /\
   exists f, to (intValue (-3)) floatType = (Some (floatValue f), None) /\
             float64_integer f = Some (-3)) /\
  to (intValue 9007199254740993) floatType = to (intValue 9007199254740992) floatType.
Proof.
  assert (H : - 2 ^ 53 <= -3 <= 2 ^ 53) by (simpl; lia).
  split; [split; [exact H | exact (proj1 int_to_float_exact_up_to_2_53 _ H)] |].
  exact (proj2 int_to_float_exact_up_to_2_53).
Defined.

(** ** Tokens without a letter or a digit *)

Lemma no_alnum_digitVal (c : ascii) :
  implb (negb (isAlnum c)) (Big.digitVal 36 c =? 63) = true.
Proof. each_byte c. Qed.

Lemma no_alnum_not_digit (c : ascii) : isAlnum c = false -> isDigit c = false.
Proof. unfold isAlnum. intros H. apply orb_false_iff in H as [_ H]. exact H. Qed.

Lemma no_alnum_not_letter (c k : ascii) :
  isAlnum c = false -> isAlnum k = true -> Ascii.eqb c k = false.
Proof.
  intros Hc Hk. destruct (Ascii.eqb_spec c k) as [-> | _]; [congruence | reflexivity].
Qed.

Lemma no_alnum_not_hex (c : ascii) :
  implb (negb (isAlnum c)) (negb ((97 <=? Strconv.lower c) && (Strconv.lower c <=? 102)))
  = true.
Proof. each_byte c. Qed.

(** [nat.scan]'s loop reads no digit from such a token. *)
Lemma scanLoop_no_alnum (b : Z) (s : string) :
  b <= 36 -> hasAlnum s = false ->
  forall z count prev inv,
    exists prev' inv' rest,
      Big.scanLoop 0 b s z count prev inv = (z, count, prev', inv', rest).
Proof.
  intros Hb. induction s as [| c s IH]; intros Hs z count prev inv.
  - eexists _, _, _. reflexivity.
  - cbn [hasAlnum] in Hs. apply orb_false_iff in Hs as [Hc Hs].
    destruct (Ascii.eqb_spec c "_") as [-> | Hne].
    + rewrite scanLoop_sep. apply IH. exact Hs.
    + rewrite scanLoop_other by assumption.
      pose proof (no_alnum_digitVal c) as Hd. rewrite Hc in Hd. cbn [negb implb] in Hd.
      apply Z.eqb_eq in Hd. rewrite Hd.
      destruct (Z.leb_spec b 63); [| lia]. eexists _, _, _. reflexivity.
Qed.

Lemma natScan_no_alnum (r : string) : hasAlnum r = false -> Big.natScan r 0 = None.
Proof.
  intros Hr. unfold Big.natScan. cbn [Z.eqb].
  destruct r as [| c0 s1].
  - reflexivity.
  - pose proof Hr as Hr'. cbn [hasAlnum] in Hr'. apply orb_false_iff in Hr' as [Hc _].
    rewrite (no_alnum_not_letter c0 "0" Hc eq_refl).
    destruct (scanLoop_no_alnum 10 (String c0 s1) ltac:(lia) Hr 0 0 Big.PrevOther false)
      as (prev' & inv' & rest & ->).
    reflexivity.
Qed.

Lemma SetString_no_alnum (token : string) :
  hasAlnum token = false -> Big.SetString token 0 = None.
Proof.
  intros Ht. unfold Big.SetString, Big.scan.
  destruct token as [| c s']; [reflexivity |].
  pose proof Ht as Ht'. cbn [hasAlnum] in Ht'. apply orb_false_iff in Ht' as [_ Hs].
  destruct (Ascii.eqb c "-"); [rewrite (natScan_no_alnum s' Hs); reflexivity |].
  destruct (Ascii.eqb c "+"); [rewrite (natScan_no_alnum s' Hs); reflexivity |].
  rewrite (natScan_no_alnum _ Ht). reflexivity.
Qed.

(** [readFloat]'s digit loop sees no digit in such a token. *)
Lemma mantLoop_no_alnum (s : string) :
  hasAlnum s = false ->
  forall m n d dot us i,
    exists m' n' d' dot' us' i' rest,
      Strconv.mantLoop 10 s (Strconv.MantState m n d dot false us) i
      = (Strconv.MantState m' n' d' dot' false us', i', rest).
Proof.
  induction s as [| c s IH]; intros Hs m n d dot us i.
  - eexists _, _, _, _, _, _, _. reflexivity.
  - cbn [hasAlnum] in Hs. apply orb_false_iff in Hs as [Hc Hs].
    cbn [Strconv.mantLoop].
    destruct (Ascii.eqb c "_"); [apply IH; exact Hs |].
    destruct (Ascii.eqb c ".").
    { destruct dot; [eexists _, _, _, _, _, _, _; reflexivity | apply IH; exact Hs]. }
    rewrite (no_alnum_not_digit c Hc). cbn [Z.eqb andb].
    eexists _, _, _, _, _, _, _. reflexivity.
Qed.

Lemma commonPrefix_no_alnum (s prefix : string) (p : ascii) :
  hasAlnum s = false -> isAlnum p = true ->
  Strconv.commonPrefixLenIgnoreCase s (String p prefix) = 0.
Proof.
  intros Hs Hp. destruct s as [| c s']; [reflexivity |].
  cbn [hasAlnum] in Hs. apply orb_false_iff in Hs as [Hc _].
  cbn [Strconv.commonPrefixLenIgnoreCase].
  assert (Hup : (65 <=? byte c) && (byte c <=? 90) = false).
  { unfold isAlnum, isLetter in Hc. apply orb_false_iff in Hc as [Hc _].
    apply orb_false_iff in Hc as [_ Hc]. exact Hc. }
  rewrite Hup.
  destruct (Z.eqb_spec (byte c) (byte p)) as [Heq | Hne]; [| reflexivity].
  exfalso. unfold isAlnum, isLetter, isDigit in Hc, Hp. rewrite Heq in Hc. congruence.
Qed.

Lemma special_no_alnum (token : string) :
  hasAlnum token = false -> Strconv.special token = None.
Proof.
  intros Ht. unfold Strconv.special.
  destruct token as [| c s']; [reflexivity |].
  pose proof Ht as Ht'. cbn [hasAlnum] in Ht'. apply orb_false_iff in Ht' as [Hc Hs].
  rewrite (commonPrefix_no_alnum s' _ "i" Hs eq_refl).
  cbn [Z.ltb Z.eqb Z.compare andb orb].
  destruct (Ascii.eqb c "+"); [reflexivity |].
  destruct (Ascii.eqb c "-"); [reflexivity |].
  rewrite (no_alnum_not_letter c "i" Hc eq_refl), (no_alnum_not_letter c "I" Hc eq_refl).
  rewrite (no_alnum_not_letter c "n" Hc eq_refl), (no_alnum_not_letter c "N" Hc eq_refl).
  reflexivity.
Qed.

Lemma hasAlnum_tail (c : ascii) (s : string) :
  hasAlnum (String c s) = false -> isAlnum c = false /\ hasAlnum s = false.
Proof. cbn [hasAlnum]. apply orb_false_iff. Qed.

Ltac read_no_digit Hr :=
  match goal with
  | |- context [Strconv.mantLoop 10 ?r (Strconv.MantState 0 0 0 false false false) ?i] =>
      let m := fresh in let n := fresh in let d := fresh in let dot := fresh in
      let us := fresh in let j := fresh in let rest := fresh in let E := fresh in
      destruct (mantLoop_no_alnum r Hr 0 0 0 false false i)
        as (m & n & d & dot & us & j & rest & E);
      rewrite E; reflexivity
  end.

(** [readFloat] after the sign, on a token without a letter or a digit. *)
Ltac read_after_sign r Hr :=
  destruct r as [| ?a [| ?b [| ?c ?r']]]; cbv beta iota zeta;
  [ read_no_digit Hr | read_no_digit Hr | read_no_digit Hr
  | let Ha := fresh in
    destruct (hasAlnum_tail _ _ Hr) as [Ha _];
    rewrite (no_alnum_not_letter _ "0" Ha eq_refl); cbn [andb];
    cbv beta iota zeta; read_no_digit Hr ].

Lemma readFloat_no_alnum (token : string) :
  hasAlnum token = false -> Strconv.readFloat token = None.
Proof.
  intros Ht. unfold Strconv.readFloat.
  destruct token as [| c0 s0']; [reflexivity |].
  destruct (hasAlnum_tail _ _ Ht) as [Hc Hs].
  destruct (Ascii.eqb c0 "+"); [read_after_sign s0' Hs |].
  destruct (Ascii.eqb c0 "-"); [read_after_sign s0' Hs |].
  cbv beta iota zeta.
  destruct s0' as [| b [| c r']]; cbv beta iota zeta;
    [ read_no_digit Ht | read_no_digit Ht | ].
  rewrite (no_alnum_not_letter _ "0" Hc eq_refl). cbn [andb].
  cbv beta iota zeta. read_no_digit Ht.
Qed.

Lemma ParseFloat_no_alnum (token : string) :
  hasAlnum token = false ->
  Strconv.ParseFloat token 64 = (S754_zero false, Some Strconv.ErrSyntax).
Proof.
  intros Ht. unfold Strconv.ParseFloat, Strconv.atof64.
  rewrite (special_no_alnum token Ht), (readFloat_no_alnum token Ht).
  cbv beta iota zeta. rewrite andb_false_r. reflexivity.
Qed.

Lemma hasAlnum_letter (before after : string) (c : ascii) :
  isLetter c = true -> hasAlnum (before ++ String c after) = true.
Proof.
  intros Hc. induction before as [| k before IH].
  - change (hasAlnum (String c after) = true).
    cbn [hasAlnum]. unfold isAlnum. rewrite Hc. reflexivity.
  - rewrite append_cons. cbn [hasAlnum]. rewrite IH. apply orb_true_r.
Qed.

(** A token with no letter and no digit in it, such as [+], [<=] or an
    empty token, never classifies, unless it is in quotes: every other
    recognizer rejects it and [getValue] returns the "Could not get type for
    token" error. *)
Theorem token_without_alnum_fails {Operator : Type} (env : LangEnv Operator)
    (token : string) :
  hasAlnum token = false -> stringValue_ofType token = false ->
  getValue env token
  = (None, Some ("Could not get type for token: " ++ token)%string).
Proof.
  intros Ht Hs. rewrite getValue_unfold, Hs.
  assert (Hi : intValue_ofType token = false).
  { unfold intValue_ofType. pose proof (ParseInt_SetString token) as H.
    rewrite (SetString_no_alnum token Ht) in H. destruct H as (v & e & ->). reflexivity. }
  assert (Hb : bigIntValue_ofType token = false).
  { unfold bigIntValue_ofType. rewrite (SetString_no_alnum token Ht). reflexivity. }
  assert (Hf : floatValue_ofType token = false).
  { unfold floatValue_ofType. rewrite (ParseFloat_no_alnum token Ht). reflexivity. }
  assert (Hbool : boolValue_ofType token = false).
  { unfold boolValue_ofType.
    destruct (String.eqb_spec token "true") as [-> | _]; [discriminate |].
    destruct (String.eqb_spec token "false") as [-> | _]; [discriminate | reflexivity]. }
  assert (Hv : varValue_ofType token = false).
  { destruct (varValue_ofType token) eqn:E; [| reflexivity].
    apply varValue_ofType_iff in E as (before & c & after & -> & Hc).
    rewrite (hasAlnum_letter before after c Hc) in Ht. discriminate. }
  rewrite Hi, Hb, Hf, Hbool, Hv. reflexivity.
Qed.

Lemma token_without_alnum_fails_sample :
  hasAlnum "<=" = false /\ stringValue_ofType "<=" = false /\
  getValue (mkLangEnv ∅ ∅ : LangEnv unit) "<="
  = (None, Some "Could not get type for token: <=").
Proof.
  split; [reflexivity |]. split; [reflexivity |].
  apply (token_without_alnum_fails (mkLangEnv ∅ ∅ : LangEnv unit) "<="); reflexivity.
Defined.

(** ** Names that are Floats *)

Ltac fold_byte c :=
  destruct c as [[|] [|] [|] [|] [|] [|] [|] [|]]; intros H; vm_compute in H;
  first [discriminate H | left; reflexivity | right; reflexivity].

Local Abbreviation foldByte c :=
  (if (65 <=? byte c%char) && (byte c%char <=? 90)
   then chr (byte c%char + 32) else c%char).

Lemma fold_is_n (c : ascii) : foldByte c = "n"%char -> c = "n"%char \/ c = "N"%char.
Proof. fold_byte c. Qed.

Lemma fold_is_a (c : ascii) : foldByte c = "a"%char -> c = "a"%char \/ c = "A"%char.
Proof. fold_byte c. Qed.

Lemma fold_is_i (c : ascii) : foldByte c = "i"%char -> c = "i"%char \/ c = "I"%char.
Proof. fold_byte c. Qed.

Lemma fold_is_f (c : ascii) : foldByte c = "f"%char -> c = "f"%char \/ c = "F"%char.
Proof. fold_byte c. Qed.

Lemma fold_is_t (c : ascii) : foldByte c = "t"%char -> c = "t"%char \/ c = "T"%char.
Proof. fold_byte c. Qed.

Lemma fold_is_y (c : ascii) : foldByte c = "y"%char -> c = "y"%char \/ c = "Y"%char.
Proof. fold_byte c. Qed.

(** The names [nan], [inf] and [infinity], in any mix of upper and lower
    case, are no Vars although the Var recognizer accepts them: the Float
    recognizer comes first and makes them the Float NaN or +Inf. *)
Theorem float_names_are_not_vars {Operator : Type} (env : LangEnv Operator)
    (token : string) :
  foldCase token = "nan" \/ foldCase token = "inf" \/ foldCase token = "infinity" ->
  varValue_ofType token = true /\
  getValue env token
  = (Some (floatValue (if String.eqb (foldCase token) "nan"
                       then S754_nan else S754_infinity false)), None).
Proof.
  intros [H | [H | H]].
  - destruct token as [| c1 [| c2 [| c3 [| c4 r]]]]; try discriminate H.
    cbn [foldCase] in H. injection H as H1 H2 H3.
    destruct (fold_is_n _ H1) as [-> | ->], (fold_is_a _ H2) as [-> | ->],
      (fold_is_n _ H3) as [-> | ->]; split; vm_compute; reflexivity.
  - destruct token as [| c1 [| c2 [| c3 [| c4 r]]]]; try discriminate H.
    cbn [foldCase] in H. injection H as H1 H2 H3.
    destruct (fold_is_i _ H1) as [-> | ->], (fold_is_n _ H2) as [-> | ->],
      (fold_is_f _ H3) as [-> | ->]; split; vm_compute; reflexivity.
  - destruct token as [| c1 [| c2 [| c3 [| c4 [| c5 [| c6 [| c7 [| c8 [| c9 r]]]]]]]]];
      try discriminate H.
    cbn [foldCase] in H. injection H as H1 H2 H3 H4 H5 H6 H7 H8.
    destruct (fold_is_i _ H1) as [-> | ->], (fold_is_n _ H2) as [-> | ->],
      (fold_is_f _ H3) as [-> | ->], (fold_is_i _ H4) as [-> | ->],
      (fold_is_n _ H5) as [-> | ->], (fold_is_i _ H6) as [-> | ->],
      (fold_is_t _ H7) as [-> | ->], (fold_is_y _ H8) as [-> | ->];
      split; vm_compute; reflexivity.
Qed.

Lemma float_names_are_not_vars_sample :
  foldCase "NaN" = "nan" /\
  varValue_ofType "NaN" = true /\
  getValue (mkLangEnv ∅ ∅ : LangEnv unit) "NaN" = (Some (floatValue S754_nan), None).
Proof.
  assert (H : foldCase "NaN" = "nan") by reflexivity.
  split; [exact H |].
  exact (float_names_are_not_vars (mkLangEnv ∅ ∅ : LangEnv unit) "NaN" (or_introl H)).
Defined.

(** ** Widening a classified Int *)

(** Widening commutes with classification: the BigInt that a classified Int
    converts to is the BigInt that the BigInt variant constructs from the
    same token. *)
Theorem widening_agrees_with_bigInt_construction {Operator : Type}
    (env : LangEnv Operator) (token : string) (value : Z) :
  getValue env token = (Some (intValue value), None) ->
  to (intValue value) bigIntType = (bigIntValue_newValue token, None).
Proof.
  intros H. apply getValue_inversion in H as [_ Hp].
  pose proof (ParseInt_SetString token) as Hs.
  unfold bigIntValue_newValue.
  destruct (Big.SetString token 0) as [z |].
  - rewrite Hp in Hs. destruct (inInt64b z).
    + injection Hs as ->. reflexivity.
    + destruct (z <? 0); discriminate.
  - destruct Hs as (v & e & Hs). rewrite Hp in Hs. discriminate.
Qed.

Lemma widening_agrees_with_bigInt_construction_sample :
  let env : LangEnv unit := mkLangEnv ∅ ∅ in
  getValue env "0o17" = (Some (intValue 15), None) /\
  to (intValue 15) bigIntType = (bigIntValue_newValue "0o17", None).
Proof.
  intros env.
  assert (H : getValue env "0o17" = (Some (intValue 15), None)) by reflexivity.
  split; [exact H | exact (widening_agrees_with_bigInt_construction env _ _ H)].
Defined.

(** * Classification of decimal integer tokens *)

Lemma isDigit_byte (c : ascii) : isDigit c = true -> 48 <= byte c <= 57.
Proof.
  unfold isDigit. intros H. apply andb_true_iff in H as [H1 H2].
  apply Z.leb_le in H1, H2. lia.
Qed.

(** [nat.scan]'s loop in base ten over decimal digits reads them all. *)
Lemma scanLoop_allDigits (s : string) :
  forall (z count : Z) (prev : Big.prevChar) (inv : bool),
    allDigits s = true ->
    Big.scanLoop 0 10 s z count prev inv
    = (digitsValue s z, count + len s,
       match s with EmptyString => prev | String _ _ => Big.PrevDigit end,
       inv, EmptyString).
Proof.
  induction s as [| c s IH]; intros z count prev inv Hs.
  - cbn. rewrite Z.add_0_r. reflexivity.
  - cbn [allDigits] in Hs. apply andb_true_iff in Hs as [Hc Hs].
    pose proof (isDigit_byte c Hc) as Hb.
    cbn [Big.scanLoop digitsValue].
    rewrite (isDigit_not c "_") by (assumption || (right; reflexivity)).
    cbn [andb]. unfold Big.digitVal. rewrite Hc.
    destruct (Z.leb_spec 10 (byte c - 48)); [lia |].
    rewrite IH by assumption.
    unfold len. cbn [String.length]. rewrite Nat2Z.inj_succ.
    replace (count + 1 + Z.of_nat (String.length s))
      with (count + Z.succ (Z.of_nat (String.length s))) by lia.
    destruct s; reflexivity.
Qed.

(** [SetString] reads a decimal integer token without a leading zero as the
    number it spells. *)
Lemma SetString_decimalInteger (token : string) (z : Z) :
  decimalInteger token = Some z -> leadingZero token = false ->
  Big.SetString token 0 = Some z.
Proof.
  unfold decimalInteger, leadingZero, Big.SetString, Big.scan, signAndDigits.
  destruct token as [| c rest]; [discriminate |].
  assert (Hnat : forall (digits : string) (neg : bool),
    match digits with
    | EmptyString => None
    | String _ _ =>
        if allDigits digits
        then Some (if neg then - digitsValue digits 0 else digitsValue digits 0)
        else None
    end = Some z ->
    match digits with String c0 _ => Ascii.eqb c0 "0" | EmptyString => false end = false ->
    match Big.natScan digits 0 with
    | Some (a, r) => Some (if neg then - a else a, r)
    | None => None
    end = Some (z, EmptyString)).
  { intros [| c0 digits] neg Hz Hzero; [discriminate |].
    destruct (allDigits (String c0 digits)) eqn:Hall; [| discriminate].
    injection Hz as <-.
    unfold Big.natScan. cbn [Z.eqb]. rewrite Hzero.
    rewrite scanLoop_allDigits by assumption.
    assert (Hlen : 0 + len (String c0 digits) <> 0).
    { unfold len. cbn [String.length]. lia. }
    apply Z.eqb_neq in Hlen. rewrite Hlen. reflexivity. }
  destruct (Ascii.eqb c "-").
  - cbn [snd]. intros Hz Hzero. rewrite (Hnat rest true Hz Hzero). reflexivity.
  - destruct (Ascii.eqb c "+").
    + cbn [snd]. intros Hz Hzero. rewrite (Hnat rest false Hz Hzero). reflexivity.
    + cbn [snd]. intros Hz Hzero.
      rewrite (Hnat (String c rest) false Hz Hzero). reflexivity.
Qed.

(** A decimal integer token does not begin with a quote. *)
Lemma stringValue_ofType_decimalInteger (token : string) (z : Z) :
  decimalInteger token = Some z -> stringValue_ofType token = false.
Proof.
  unfold decimalInteger, signAndDigits.
  destruct token as [| c rest]; [discriminate |].
  intros Hz. apply stringValue_ofType_not_quote.
  destruct (Ascii.eqb_spec c "-") as [-> | _]; [reflexivity |].
  destruct (Ascii.eqb_spec c "+") as [-> | _]; [reflexivity |].
  destruct (allDigits (String c rest)) eqn:Hall; [| discriminate].
  cbn [allDigits] in Hall. apply andb_true_iff in Hall as [Hc _].
  apply isDigit_not_quote. exact Hc.
Qed.

(** What a decimal integer token without a leading zero classifies as. *)
Lemma getValue_decimalInteger {Operator : Type} (env : LangEnv Operator)
    (token : string) (z : Z) :
  decimalInteger token = Some z -> leadingZero token = false ->
  getValue env token
  = if inInt64b z then (Some (intValue z), None) else (Some (bigIntValue z), None).
Proof.
  intros Hz Hzero. rewrite getValue_unfold.
  rewrite (stringValue_ofType_decimalInteger token z Hz).
  pose proof (SetString_decimalInteger token z Hz Hzero) as Hset.
  pose proof (ParseInt_SetString token) as Hparse. rewrite Hset in Hparse.
  unfold intValue_ofType, intValue_newValue, bigIntValue_ofType, bigIntValue_newValue.
  rewrite Hparse, Hset.
  destruct (inInt64b z); [reflexivity |].
  destruct (z <? 0); reflexivity.
Qed.

(** C2 (as amended): the registry's order decides between recognizers that
    overlap.  [5] is an Int although the BigInt and Float recognizers accept
    it too; [3.14] is a Float; [true] is a Bool although the Var recognizer
    accepts it too; [99999999999999999999] is a BigInt.  In general a decimal
    integer token (an optional sign, then digits) whose first digit is not a
    zero classifies as the BigInt of the number it spells when that number is
    outside the range of an [int64], and as the Int of that number when it is
    inside. *)
Theorem C2_classification_precedence {Operator : Type} (env : LangEnv Operator) :
  (getValue env "5" = (Some (intValue 5), None)
   /\ bigIntValue_ofType "5" = true /\ floatValue_ofType "5" = true) /\
  (getValue env "99999999999999999999"
     = (Some (bigIntValue 99999999999999999999), None)
   /\ intValue_ofType "99999999999999999999" = false) /\
  (getValue env "3.14"
     = (Some (floatValue (S754_finite false 7070651414971679 (-51))), None)) /\
  (getValue env "true" = (Some (boolValue true), None)
   /\ varValue_ofType "true" = true) /\
  (forall token z,
     decimalInteger token = Some z -> leadingZero token = false -> ~ inInt64 z ->
     getValue env token = (Some (bigIntValue z), None)) /\
  (forall token z,
     decimalInteger token = Some z -> leadingZero token = false -> inInt64 z ->
     getValue env token = (Some (intValue z), None)).
Proof.
  split; [repeat split; vm_compute; reflexivity |].
  split; [repeat split; vm_compute; reflexivity |].
  split; [vm_compute; reflexivity |].
  split; [repeat split; vm_compute; reflexivity |].
  split; intros token z Hz Hzero Hrange;
    rewrite (getValue_decimalInteger env token z Hz Hzero).
  - destruct (inInt64b z) eqn:Hb; [| reflexivity].
    apply inInt64b_spec in Hb. contradiction.
  - apply inInt64b_spec in Hrange. rewrite Hrange. reflexivity.
Qed.

(** C2 (as amended) at the smallest decimal token below the [int64] range,
    and at the same digits with a plus sign and one unit more. *)
Lemma C2_classification_of_decimal_samples :
  let env : LangEnv unit := mkLangEnv ∅ ∅ in
  (decimalInteger "-9223372036854775809" = Some (-9223372036854775809) /\
   leadingZero "-9223372036854775809" = false /\
   ~ inInt64 (-9223372036854775809) /\
   getValue env "-9223372036854775809"
   = (Some (bigIntValue (-9223372036854775809)), None)) /\
  (decimalInteger "+9223372036854775807" = Some 9223372036854775807 /\
   leadingZero "+9223372036854775807" = false /\
   inInt64 9223372036854775807 /\
   getValue env "+9223372036854775807"
   = (Some (intValue 9223372036854775807), None)).
Proof.
  intros env.
  pose proof (C2_classification_precedence env) as (_ & _ & _ & _ & Hbig & Hint).
  assert (H1 : decimalInteger "-9223372036854775809" = Some (-9223372036854775809))
    by reflexivity.
  assert (H2 : leadingZero "-9223372036854775809" = false) by reflexivity.
  assert (H3 : ~ inInt64 (-9223372036854775809)) by (unfold inInt64; simpl; lia).
  assert (H4 : decimalInteger "+9223372036854775807" = Some 9223372036854775807)
    by reflexivity.
  assert (H5 : leadingZero "+9223372036854775807" = false) by reflexivity.
  assert (H6 : inInt64 9223372036854775807) by (unfold inInt64; simpl; lia).
  split.
  - split; [exact H1 |]. split; [exact H2 |]. split; [exact H3 |].
    exact (Hbig _ _ H1 H2 H3).
  - split; [exact H4 |]. split; [exact H5 |]. split; [exact H6 |].
    exact (Hint _ _ H4 H5 H6).
Defined.

(** C2, counterexample: [099999999999999999999] is a decimal integer token
    and the number it spells is beyond the range of an [int64], yet it
    classifies as a Float: base 0 reads a leading zero as the octal prefix, so
    the Int and BigInt recognizers stop at the digit 9, and the Float
    recognizer accepts the token. *)
Lemma C2_leading_zero_is_float :
  let env : LangEnv unit := mkLangEnv ∅ ∅ in
  decimalInteger "099999999999999999999" = Some 99999999999999999999 /\
  ~ inInt64 99999999999999999999 /\
  intValue_ofType "099999999999999999999" = false /\
  bigIntValue_ofType "099999999999999999999" = false /\
  getValue env "099999999999999999999"
  = (Some (floatValue (S754_finite false 6103515625000000 14)), None) /\
  forall z, getValue env "099999999999999999999" <> (Some (bigIntValue z), None).
Proof.
  intros env.
  split; [reflexivity |].
  split; [unfold inInt64; simpl; lia |].
  split; [vm_compute; reflexivity |].
  split; [vm_compute; reflexivity |].
  assert (H : getValue env "099999999999999999999"
              = (Some (floatValue (S754_finite false 6103515625000000 14)), None))
    by (vm_compute; reflexivity).
  split; [exact H |].
  intros z. rewrite H. discriminate.
Qed.
